(** * cppcheck.py: the compile-command filter and the cppcheck driver

    A shallow embedding of [src/cppcheck.py].  The script reads a build
    directory from the command line, loads [compile_commands.json], drops
    the records whose key path names a dependency, the test target, the
    embedded files or [stb.c], writes what is left next to the input and
    runs [cppcheck] on it.

    The development has five layers:
    - text, a Python [str] being carried by its UTF-8 encoding;
    - Python values as the script sees them after [json.load], with the
      [in] operator, subscripting and iteration of Python and the
      exceptions they raise;
    - the filter [is_valid_entry] and the list comprehension around it,
      and [json.dumps] with an indentation;
    - the script itself, as a program in a small trace-and-exception monad
      over an explicit host (file system, search path, processor count,
      child process), and the interpreter's exit around it;
    - what a text denotes as JSON and how it is laid out, read from the
      text alone, as the measure for what the script writes. *)

From Stdlib Require Import List String Ascii Bool ZArith NArith Lia Sorted.
From Stdlib Require Import DecimalString DecimalNat DecimalPos DecimalFacts.
Import ListNotations.

Set Warnings "-register-all".

Open Scope list_scope.
Open Scope string_scope.

(** ** Text *)

(** A Python [str] is a sequence of code points.  It is carried by a
    [string] that holds its UTF-8 encoding, a code point from U+D800 to
    U+DFFF being encoded in three bytes like its neighbours.  Equality of
    two strings and the search of an ASCII fragment give the same answer
    on the bytes as on the code points. *)
Module Utf8.

Local Open Scope N_scope.

Definition code (c : ascii) : N := N_of_ascii c.

(** A continuation byte, [10xxxxxx], and the six bits it carries. *)
Definition is_cont (c : ascii) : bool :=
  (0x80 <=? code c) && (code c <=? 0xBF).

Definition low6 (c : ascii) : N := code c - 0x80.

(** The characters of a string: the bytes of each and its code point.
    A byte that starts no well-formed sequence stands for itself. *)
Fixpoint chars (s : string) : list (string * N) :=
  match s with
  | EmptyString => []
  | String b0 r0 =>
      let one := (String b0 "", code b0) :: chars r0 in
      match r0 with
      | EmptyString => one
      | String b1 r1 =>
          let cp2 := (code b0 - 0xC0) * 64 + low6 b1 in
          if (0xC2 <=? code b0) && (code b0 <=? 0xDF) && is_cont b1
          then (String b0 (String b1 ""), cp2) :: chars r1
          else
          match r1 with
          | EmptyString => one
          | String b2 r2 =>
              let cp3 := ((code b0 - 0xE0) * 64 + low6 b1) * 64 + low6 b2 in
              if (0xE0 <=? code b0) && (code b0 <=? 0xEF) &&
                 is_cont b1 && is_cont b2 && (0x800 <=? cp3)
              then (String b0 (String b1 (String b2 "")), cp3) :: chars r2
              else
              match r2 with
              | EmptyString => one
              | String b3 r3 =>
                  let cp4 :=
                    (((code b0 - 0xF0) * 64 + low6 b1) * 64 + low6 b2) * 64
                    + low6 b3 in
                  if (0xF0 <=? code b0) && (code b0 <=? 0xF4) &&
                     is_cont b1 && is_cont b2 && is_cont b3 &&
                     (0x10000 <=? cp4) && (cp4 <=? 0x10FFFF)
                  then (String b0 (String b1 (String b2 (String b3 ""))),
                        cp4) :: chars r3
                  else one
              end
          end
      end
  end.

(** The bytes of one code point. *)
Definition encode (cp : N) : string :=
  if cp <? 0x80 then String (ascii_of_N cp) ""
  else if cp <? 0x800 then
    String (ascii_of_N (0xC0 + cp / 64))
      (String (ascii_of_N (0x80 + cp mod 64)) "")
  else if cp <? 0x10000 then
    String (ascii_of_N (0xE0 + cp / 64 / 64))
      (String (ascii_of_N (0x80 + (cp / 64) mod 64))
         (String (ascii_of_N (0x80 + cp mod 64)) ""))
  else
    String (ascii_of_N (0xF0 + cp / 64 / 64 / 64))
      (String (ascii_of_N (0x80 + (cp / 64 / 64) mod 64))
         (String (ascii_of_N (0x80 + (cp / 64) mod 64))
            (String (ascii_of_N (0x80 + cp mod 64)) ""))).

Fixpoint encode_all (cps : list N) : string :=
  match cps with
  | [] => ""
  | cp :: cps' => encode cp ++ encode_all cps'
  end.

(** A Unicode scalar value: a code point that is no surrogate. *)
Definition scalar_value (cp : N) : bool :=
  (cp <? 0xD800) || ((0xDFFF <? cp) && (cp <=? 0x10FFFF)).

(** Well-formed text: the encoding of scalar values. *)
Definition valid (s : string) : Prop :=
  exists cps, forallb scalar_value cps = true /\ s = encode_all cps.

End Utf8.

(** ** Python values *)

Module Py.

(** A [float] is never inspected by the script: a finite one is carried
    as its [repr], the three others by name. *)
Inductive pyfloat : Type :=
| Finite (repr : string)
| PosInf
| NegInf
| NaN.

(** What [json.load] can return.  A Python [str] is a [string] holding
    its UTF-8 encoding (see [Utf8]).  An [int] is a [Z].  A [dict] is its
    items in insertion order; its keys are strings because they come from
    JSON. *)
Inductive value : Type :=
| VNone
| VBool (b : bool)
| VInt (n : Z)
| VFloat (f : pyfloat)
| VStr (s : string)
| VList (items : list value)
| VDict (items : list (string * value)).

(** The exceptions the script can die of. *)
Inductive exn : Type :=
| IndexError
| KeyError
| TypeError
| LoadError            (* whatever [open] or [json.load] raises *)
| OSError              (* [open(..., "w")], [write] or the spawn failing *)
| NotImplementedError  (* [multiprocessing.cpu_count] *)
| CalledProcessError (returncode : Z).

(** A computation that returns or raises. *)
Inductive result (A : Type) : Type :=
| Ok (a : A)
| Raise (e : exn).
Arguments Ok {A} a.
Arguments Raise {A} e.

Definition rbind {A B} (r : result A) (k : A -> result B) : result B :=
  match r with
  | Ok a => k a
  | Raise e => Raise e
  end.

(** *** Strings *)

(** [needle in s] for two strings: [needle] occurs in [s] at some
    position. *)
Fixpoint str_contains (needle s : string) : bool :=
  prefix needle s ||
  match s with
  | EmptyString => false
  | String _ s' => str_contains needle s'
  end.

(** The same, as a proposition: [s] splits around a copy of [needle]. *)
Definition Substring (needle s : string) : Prop :=
  exists pre post, s = pre ++ needle ++ post.

(** Iterating a string yields its characters as one-character strings. *)
Definition str_chars (s : string) : list value :=
  map (fun ch => VStr (fst ch)) (Utf8.chars s).

(** *** Dictionaries *)

Fixpoint dict_get (k : string) (d : list (string * value)) : option value :=
  match d with
  | [] => None
  | (k', v) :: d' => if String.eqb k k' then Some v else dict_get k d'
  end.

Definition dict_has (k : string) (d : list (string * value)) : bool :=
  match dict_get k d with
  | Some _ => true
  | None => false
  end.

(** *** The operators the script uses *)

(** ['lit' == v]: a string equals only an equal string. *)
Definition str_eq (lit : string) (v : value) : bool :=
  match v with
  | VStr s => String.eqb lit s
  | _ => false
  end.

(** ['lit' in v].  A string is searched, a list is scanned for an equal
    element, a dict is asked for the key; nothing else is a container. *)
Definition contains (lit : string) (v : value) : result bool :=
  match v with
  | VStr s => Ok (str_contains lit s)
  | VList l => Ok (existsb (str_eq lit) l)
  | VDict d => Ok (dict_has lit d)
  | VNone | VBool _ | VInt _ | VFloat _ => Raise TypeError
  end.

(** [v['lit']].  Only a dict can be subscripted by a string. *)
Definition subscript (v : value) (lit : string) : result value :=
  match v with
  | VDict d =>
      match dict_get lit d with
      | Some x => Ok x
      | None => Raise KeyError
      end
  | _ => Raise TypeError
  end.

(** [for x in v]. *)
Definition iterate (v : value) : result (list value) :=
  match v with
  | VList l => Ok l
  | VDict d => Ok (map (fun kv => VStr (fst kv)) d)
  | VStr s => Ok (str_chars s)
  | VNone | VBool _ | VInt _ | VFloat _ => Raise TypeError
  end.

End Py.

Import Py.

Notation "x <- r ;; k" := (rbind r (fun x => k))
  (at level 61, r at next level, right associativity).

(** ** The filter *)

(** The four fragments of lines 38 to 41, in the order they are tested. *)
Definition denylist : list string :=
  ["_deps"; "cerlibTests.dir"; "embedded_files"; "stb.c"].

(** Lines 28 to 33: the key of a record.  [key = None] of the script is
    [VNone] here. *)
Definition entry_key (obj : value) : result value :=
  has_output <- contains "output" obj ;;
  if has_output then subscript obj "output"
  else
    has_file <- contains "file" obj ;;
    if has_file then subscript obj "file"
    else Ok VNone.

(** Lines 38 to 41: the chain of [not in ... and ...], left to right,
    stopping at the first fragment found. *)
Definition key_is_clean (key : value) : result bool :=
  a <- contains "_deps" key ;;
  if a then Ok false else
  b <- contains "cerlibTests.dir" key ;;
  if b then Ok false else
  c <- contains "embedded_files" key ;;
  if c then Ok false else
  d <- contains "stb.c" key ;;
  Ok (negb d).

(** Lines 27 to 41. *)
Definition is_valid_entry (obj : value) : result bool :=
  key <- entry_key obj ;;
  match key with
  | VNone => Ok true
  | _ => key_is_clean key
  end.

(** The comprehension body of line 44 over the elements already obtained
    from the iteration: elements are tested in order and the first
    exception ends the whole comprehension. *)
Fixpoint filter_entries (objs : list value) : result (list value) :=
  match objs with
  | [] => Ok []
  | obj :: rest =>
      keep <- is_valid_entry obj ;;
      kept <- filter_entries rest ;;
      Ok (if keep then obj :: kept else kept)
  end.

(** Line 44: [[obj for obj in json_doc if is_valid_entry(obj)]]. *)
Definition filter_doc (json_doc : value) : result (list value) :=
  objs <- iterate json_doc ;;
  filter_entries objs.

(** ** Serialisation: [json.dumps(doc, indent=2)] *)

Module Json.

Definition quote : ascii := ascii_of_nat 34.
Definition newline : ascii := ascii_of_nat 10.

Definition hex_digit (n : nat) : ascii :=
  match get n "0123456789abcdef" with
  | Some c => c
  | None => "0"%char
  end.

(** Four hexadecimal digits, lower case. *)
Definition hex4 (n : N) : string :=
  String (hex_digit (N.to_nat (n / 16 / 16 / 16)))
    (String (hex_digit (N.to_nat ((n / 16 / 16) mod 16)))
       (String (hex_digit (N.to_nat ((n / 16) mod 16)))
          (String (hex_digit (N.to_nat (n mod 16))) ""))).

(** One character of a string literal, as the ASCII-only encoder writes
    it: the two-character escapes; [\uxxxx] for what is not printable
    ASCII, a code point above U+FFFF as its two surrogates; the character
    itself otherwise. *)
Definition escape_cp (cp : N) : string :=
  if N.eqb cp 34 then String "\" (String quote "")
  else if N.eqb cp 92 then "\\"
  else if N.eqb cp 8 then "\b"
  else if N.eqb cp 12 then "\f"
  else if N.eqb cp 10 then "\n"
  else if N.eqb cp 13 then "\r"
  else if N.eqb cp 9 then "\t"
  else if N.ltb cp 32 || N.ltb 126 cp then
    if N.ltb cp 0x10000 then "\u" ++ hex4 cp
    else
      let v := (cp - 0x10000)%N in
      "\u" ++ hex4 (0xD800 + v / 1024) ++ "\u" ++ hex4 (0xDC00 + v mod 1024)
  else String (ascii_of_N cp) "".

Fixpoint escape_all (cps : list N) : string :=
  match cps with
  | [] => ""
  | cp :: cps' => escape_cp cp ++ escape_all cps'
  end.

Definition escape (s : string) : string :=
  escape_all (map snd (Utf8.chars s)).

(** A float as the encoder writes it. *)
Definition float_str (f : pyfloat) : string :=
  match f with
  | Finite r => r
  | PosInf => "Infinity"
  | NegInf => "-Infinity"
  | NaN => "NaN"
  end.

Definition encode_str (s : string) : string :=
  String quote (escape s ++ String quote "").

Definition encode_int (n : Z) : string :=
  NilEmpty.string_of_int (Z.to_int n).

Fixpoint spaces (n : nat) : string :=
  match n with
  | O => ""
  | S n' => String " " (spaces n')
  end.

(** A line break followed by the indentation of nesting depth [level]. *)
Definition newline_indent (indent level : nat) : string :=
  String newline (spaces (indent * level)).

(** The encoder at nesting depth [level].  An empty container is written
    closed on the spot; otherwise every item starts a line one level
    deeper, items are separated by a comma, a key and its value by a colon
    and a space, and the closing bracket is on a line of its own. *)
Fixpoint encode (indent level : nat) (v : value) : string :=
  match v with
  | VNone => "null"
  | VBool true => "true"
  | VBool false => "false"
  | VInt n => encode_int n
  | VFloat f => float_str f
  | VStr s => encode_str s
  | VList [] => "[]"
  | VList (x :: xs) =>
      "[" ++ newline_indent indent (S level) ++ encode indent (S level) x ++
      (fix rest (l : list value) : string :=
         match l with
         | [] => ""
         | y :: l' =>
             "," ++ newline_indent indent (S level) ++
             encode indent (S level) y ++ rest l'
         end) xs ++
      newline_indent indent level ++ "]"
  | VDict [] => "{}"
  | VDict ((k, x) :: kvs) =>
      "{" ++ newline_indent indent (S level) ++
      encode_str k ++ ": " ++ encode indent (S level) x ++
      (fix rest (l : list (string * value)) : string :=
         match l with
         | [] => ""
         | (k', y) :: l' =>
             "," ++ newline_indent indent (S level) ++
             encode_str k' ++ ": " ++ encode indent (S level) y ++ rest l'
         end) kvs ++
      newline_indent indent level ++ "}"
  end.

Definition dumps (v : value) (indent : nat) : string := encode indent 0 v.

End Json.

(** ** Paths *)

Definition starts_with (s p : string) : bool := prefix p s.

Fixpoint ends_with_slash (s : string) : bool :=
  match s with
  | EmptyString => false
  | String c EmptyString => Ascii.eqb c "/"
  | String _ s' => ends_with_slash s'
  end.

(** [os.path.join(a, b)] of [posixpath]. *)
Definition os_path_join (a b : string) : string :=
  if starts_with b "/" then b
  else if String.eqb a "" || ends_with_slash a then a ++ b
  else a ++ "/" ++ b.

(** ** The host and the script *)

Module Script.

(** Everything the script asks of its surroundings. *)
Record host : Type := {
  argv : list string;                      (* [sys.argv] *)
  path_exists : string -> bool;            (* [os.path.exists] *)
  which : string -> option string;         (* [shutil.which] *)
  load : string -> option value;           (* [open] and [json.load] *)
  write_ok : string -> bool;               (* [open(..., "w")] and [write] *)
  cpu_count : option nat;                  (* [multiprocessing.cpu_count] *)
  child : list string -> option Z          (* exit status of the child *)
}.

(** What an observer sees, each question with the answer it got. *)
Inductive event : Type :=
| Exists (path : string) (found : bool)
| Print (line : string)
| Which (name : string) (found : option string)
| Load (path : string) (doc : option value)
| Write (path : string) (content : string) (ok : bool)
| CpuCount (n : option nat)
| CheckCall (args : list string) (shell : bool) (status : option Z).

(** How the script ends when it does not reach its last line:
    [sys.exit(msg)] with a string, or an exception nobody catches.  Both
    write to standard error ([msg], or a traceback) and leave with
    status 1. *)
Inductive stop : Type :=
| SysExit (msg : string)
| Uncaught (e : exn).

(** A step: the events it caused, then a value or the end. *)
Definition prog (A : Type) : Type := list event * (A + stop).

Definition ret {A} (a : A) : prog A := ([], inl a).

Definition bind {A B} (m : prog A) (k : A -> prog B) : prog B :=
  match m with
  | (t, inl a) => let (t', r) := k a in ((t ++ t')%list, r)
  | (t, inr s) => (t, inr s)
  end.

Definition emit {A} (e : event) (a : A) : prog A := ([e], inl a).
Definition raise {A} (e : exn) : prog A := ([], inr (Uncaught e)).
Definition sys_exit {A} (msg : string) : prog A := ([], inr (SysExit msg)).

Definition lift {A} (r : result A) : prog A :=
  match r with
  | Ok a => ret a
  | Raise e => raise e
  end.

End Script.

Import Script.

Notation "x <~ m ;; k" := (bind m (fun x => k))
  (at level 61, m at next level, right associativity).
Notation "m ;;; k" := (bind m (fun _ => k))
  (at level 61, right associativity).

Section Run.

Variable h : host.

Definition sys_argv (i : nat) : prog string :=
  match nth_error (argv h) i with
  | Some a => ret a
  | None => raise IndexError
  end.

Definition os_path_exists (p : string) : prog bool :=
  emit (Exists p (path_exists h p)) (path_exists h p).

(** [print(a, b)]: the arguments separated by a space, then a line
    break.  Standard output is buffered, as it is unless the interpreter
    is told otherwise: the line goes into the buffer, and whether it
    reaches its destination shows when the interpreter flushes the
    buffer at exit (see [process_status]). *)
Definition print2 (a b : string) : prog unit :=
  emit (Print (a ++ " " ++ b ++ String Json.newline "")) tt.

Definition shutil_which (name : string) : prog (option string) :=
  emit (Which name (which h name)) (which h name).

(** Lines 22 and 23. *)
Definition json_load (p : string) : prog value :=
  match load h p with
  | Some doc => emit (Load p (Some doc)) doc
  | None => ([Load p None], inr (Uncaught LoadError))
  end.

(** Lines 48 and 49. *)
Definition write_file (p content : string) : prog unit :=
  if write_ok h p then emit (Write p content true) tt
  else ([Write p content false], inr (Uncaught OSError)).

Definition multiprocessing_cpu_count : prog nat :=
  match cpu_count h with
  | Some n => emit (CpuCount (Some n)) n
  | None => ([CpuCount None], inr (Uncaught NotImplementedError))
  end.

(** [str(n)] for a count. *)
Definition str_of_nat (n : nat) : string :=
  NilEmpty.string_of_uint (Nat.to_uint n).

(** [subprocess.check_call(args, shell=...)]: waits for the child and
    raises unless it left with status 0. *)
Definition check_call (args : list string) (shell : bool) : prog unit :=
  match child h args with
  | Some 0%Z => emit (CheckCall args shell (Some 0%Z)) tt
  | Some c =>
      ([CheckCall args shell (Some c)], inr (Uncaught (CalledProcessError c)))
  | None => ([CheckCall args shell None], inr (Uncaught OSError))
  end.

(** [not cppcheck_cmd]: [None] and the empty string are false. *)
Definition falsy (cmd : option string) : bool :=
  match cmd with
  | None => true
  | Some s => String.eqb s ""
  end.

(** The script, top to bottom.  Line 17 tests the truth value of what
    [shutil.which] returned; past it the command is a string, which the
    [match] names. *)
Definition main : prog unit :=
  build_dir <~ sys_argv 1 ;;
  let compile_commands_json :=
    os_path_join build_dir "compile_commands.json" in
  found <~ os_path_exists compile_commands_json ;;
  if negb found then
    sys_exit ("error: compile_commands.json not found in " ++ build_dir)
  else
  print2 "Performing Cppcheck checks in directory:" build_dir ;;;
  cppcheck_cmd <~ shutil_which "cppcheck" ;;
  match cppcheck_cmd with
  | None => sys_exit "error: unable to find cppcheck"
  | Some cmd =>
  if falsy cppcheck_cmd then sys_exit "error: unable to find cppcheck" else
  print2 "Found cppcheck:" cmd ;;;
  json_doc <~ json_load compile_commands_json ;;
  json_doc' <~ lift (filter_doc json_doc) ;;
  let output_filename :=
    os_path_join build_dir "compile_commands_cppcheck.json" in
  write_file output_filename (Json.dumps (VList json_doc') 2) ;;;
  num_jobs <~ multiprocessing_cpu_count ;;
  check_call
    [cmd; "--project=" ++ output_filename; "--enable=warning"; "--std=c++20";
     "-j"; str_of_nat num_jobs]
    false
  end.

Definition trace : list event := fst main.

(** The status the script ends with: 0 past its last line, 1 after
    [sys.exit] with a message or an exception nobody catches.  It is the
    exit status of the interpreter unless the flush at exit fails (see
    [process_status]). *)
Definition exit_status : Z :=
  match snd main with
  | inl _ => 0
  | inr _ => 1
  end.

(** What the script itself writes to standard error. *)
Definition stderr_message : option string :=
  match snd main with
  | inr (SysExit msg) => Some msg
  | _ => None
  end.

End Run.

(** ** Vocabulary of the statements *)

(** [ys] is [xs] with some elements left out. *)
Inductive Subseq {A : Type} : list A -> list A -> Prop :=
| Subseq_nil : Subseq [] []
| Subseq_keep x ys xs : Subseq ys xs -> Subseq (x :: ys) (x :: xs)
| Subseq_drop x ys xs : Subseq ys xs -> Subseq ys (x :: xs).

(** [ys] is read off [xs] at the positions [idx], which go upwards. *)
Definition picked_at {A : Type} (idx : list nat) (xs ys : list A) : Prop :=
  StronglySorted lt idx /\
  Forall2 (fun i y => nth_error xs i = Some y) idx ys.

(** The verdict of [is_valid_entry] as a plain boolean: kept means that
    the call returned [True]. *)
Definition keeps (obj : value) : bool :=
  match is_valid_entry obj with
  | Ok true => true
  | _ => false
  end.

(** The key as the specification words it: [output] if present,
    otherwise [file] if present, otherwise none. *)
Definition spec_key (d : list (string * value)) : option value :=
  match dict_get "output" d with
  | Some v => Some v
  | None => dict_get "file" d
  end.

(** A path that holds none of the four fragments. *)
Definition clean (s : string) : Prop :=
  forall frag, In frag denylist -> ~ Substring frag s.

(** A compile-command record: a dict whose [output] and [file], where
    present, are strings. *)
Definition str_field (k : string) (d : list (string * value)) : Prop :=
  forall x, dict_get k d = Some x -> exists s, x = VStr s.

Definition record (v : value) : Prop :=
  exists d, v = VDict d /\ str_field "output" d /\ str_field "file" d.

(** Facts about one run, read off its trace. *)
Definition database_path (bd : string) : string :=
  os_path_join bd "compile_commands.json".

Definition filtered_path (bd : string) : string :=
  os_path_join bd "compile_commands_cppcheck.json".

Definition database_existed (h : host) : Prop :=
  exists bd, nth_error (argv h) 1 = Some bd /\
             In (Exists (database_path bd) true) (trace h).

Definition tool_found (h : host) : Prop :=
  exists cmd, In (Which "cppcheck" (Some cmd)) (trace h).

Definition child_exited (h : host) (c : Z) : Prop :=
  exists args shell, In (CheckCall args shell (Some c)) (trace h).

Definition wrote_something (h : host) : Prop :=
  exists p content ok, In (Write p content ok) (trace h).

Definition called_something (h : host) : Prop :=
  exists args shell st, In (CheckCall args shell st) (trace h).

(** The argument vector of line 53 to 59. *)
Definition cppcheck_args (cmd bd : string) (n : nat) : list string :=
  [cmd; "--project=" ++ filtered_path bd; "--enable=warning"; "--std=c++20";
   "-j"; str_of_nat n].

(** The events of a run up to the search for the tool, up to the load,
    up to the write and up to the count of processors. *)
Definition events_to_which (bd : string) (found : option string)
  : list event :=
  [Exists (database_path bd) true;
   Print ("Performing Cppcheck checks in directory:" ++ " " ++ bd ++
          String Json.newline "");
   Which "cppcheck" found].

Definition events_to_load (bd cmd : string) (doc : option value)
  : list event :=
  (events_to_which bd (Some cmd) ++
   [Print ("Found cppcheck:" ++ " " ++ cmd ++ String Json.newline "");
    Load (database_path bd) doc])%list.

Definition events_to_write (bd cmd : string) (doc : value)
  (ys : list value) (ok : bool) : list event :=
  (events_to_load bd cmd (Some doc) ++
   [Write (filtered_path bd) (Json.dumps (VList ys) 2) ok])%list.

Definition events_to_count (bd cmd : string) (doc : value)
  (ys : list value) (n : option nat) : list event :=
  (events_to_write bd cmd doc ys true ++ [CpuCount n])%list.

(** The ways a run can go, one per exit of the script, each with the
    answers of the host that lead there. *)
Inductive Run (h : host) : prog unit -> Prop :=
| Run_no_argument :
    nth_error (argv h) 1 = None ->
    Run h ([], inr (Uncaught IndexError))
| Run_no_database bd :
    nth_error (argv h) 1 = Some bd ->
    path_exists h (database_path bd) = false ->
    Run h ([Exists (database_path bd) false],
           inr (SysExit ("error: compile_commands.json not found in " ++ bd)))
| Run_no_tool bd found :
    nth_error (argv h) 1 = Some bd ->
    path_exists h (database_path bd) = true ->
    which h "cppcheck" = found ->
    falsy found = true ->
    Run h (events_to_which bd found,
           inr (SysExit "error: unable to find cppcheck"))
| Run_load_failed bd cmd :
    nth_error (argv h) 1 = Some bd ->
    path_exists h (database_path bd) = true ->
    which h "cppcheck" = Some cmd -> cmd <> "" ->
    load h (database_path bd) = None ->
    Run h (events_to_load bd cmd None, inr (Uncaught LoadError))
| Run_filter_failed bd cmd doc e :
    nth_error (argv h) 1 = Some bd ->
    path_exists h (database_path bd) = true ->
    which h "cppcheck" = Some cmd -> cmd <> "" ->
    load h (database_path bd) = Some doc ->
    filter_doc doc = Raise e ->
    Run h (events_to_load bd cmd (Some doc), inr (Uncaught e))
| Run_write_failed bd cmd doc ys :
    nth_error (argv h) 1 = Some bd ->
    path_exists h (database_path bd) = true ->
    which h "cppcheck" = Some cmd -> cmd <> "" ->
    load h (database_path bd) = Some doc ->
    filter_doc doc = Ok ys ->
    write_ok h (filtered_path bd) = false ->
    Run h (events_to_write bd cmd doc ys false, inr (Uncaught OSError))
| Run_count_failed bd cmd doc ys :
    nth_error (argv h) 1 = Some bd ->
    path_exists h (database_path bd) = true ->
    which h "cppcheck" = Some cmd -> cmd <> "" ->
    load h (database_path bd) = Some doc ->
    filter_doc doc = Ok ys ->
    write_ok h (filtered_path bd) = true ->
    cpu_count h = None ->
    Run h (events_to_count bd cmd doc ys None,
           inr (Uncaught NotImplementedError))
| Run_spawn_failed bd cmd doc ys n :
    nth_error (argv h) 1 = Some bd ->
    path_exists h (database_path bd) = true ->
    which h "cppcheck" = Some cmd -> cmd <> "" ->
    load h (database_path bd) = Some doc ->
    filter_doc doc = Ok ys ->
    write_ok h (filtered_path bd) = true ->
    cpu_count h = Some n ->
    child h (cppcheck_args cmd bd n) = None ->
    Run h ((events_to_count bd cmd doc ys (Some n) ++
            [CheckCall (cppcheck_args cmd bd n) false None])%list,
           inr (Uncaught OSError))
| Run_child_failed bd cmd doc ys n c :
    nth_error (argv h) 1 = Some bd ->
    path_exists h (database_path bd) = true ->
    which h "cppcheck" = Some cmd -> cmd <> "" ->
    load h (database_path bd) = Some doc ->
    filter_doc doc = Ok ys ->
    write_ok h (filtered_path bd) = true ->
    cpu_count h = Some n ->
    child h (cppcheck_args cmd bd n) = Some c -> c <> 0%Z ->
    Run h ((events_to_count bd cmd doc ys (Some n) ++
            [CheckCall (cppcheck_args cmd bd n) false (Some c)])%list,
           inr (Uncaught (CalledProcessError c)))
| Run_success bd cmd doc ys n :
    nth_error (argv h) 1 = Some bd ->
    path_exists h (database_path bd) = true ->
    which h "cppcheck" = Some cmd -> cmd <> "" ->
    load h (database_path bd) = Some doc ->
    filter_doc doc = Ok ys ->
    write_ok h (filtered_path bd) = true ->
    cpu_count h = Some n ->
    child h (cppcheck_args cmd bd n) = Some 0%Z ->
    Run h ((events_to_count bd cmd doc ys (Some n) ++
            [CheckCall (cppcheck_args cmd bd n) false (Some 0%Z)])%list,
           inl tt).

(** *** The interpreter at exit *)

Definition is_print (e : event) : bool :=
  match e with
  | Print _ => true
  | _ => false
  end.

(** Whether the script ended by [sys.exit] with a message or by an
    exception: then a message or a traceback went to standard error. *)
Definition ended_in_error (h : host) : bool :=
  match snd (main h) with
  | inl _ => false
  | inr _ => true
  end.

(** When the script has ended, the interpreter flushes standard output
    and standard error; the two fields tell whether that succeeds. *)
Record streams : Type := {
  stdout_flushes : bool;
  stderr_flushes : bool
}.

(** The exit status of the process.  If what the script printed cannot
    be flushed to standard output, or what it ended with cannot be
    flushed to standard error, the interpreter leaves with status 120
    whatever the script ended with; otherwise it leaves with the status
    of the script. *)
Definition process_status (io : streams) (h : host) : Z :=
  if (existsb is_print (trace h) && negb (stdout_flushes io)) ||
     (ended_in_error h && negb (stderr_flushes io))
  then 120%Z
  else exit_status h.

(** *** Decimal numerals *)

(** The value of a decimal digit. *)
Definition digit_of (c : ascii) : option N :=
  let n := N_of_ascii c in
  if (48 <=? n)%N && (n <=? 57)%N then Some (n - 48)%N else None.

(** The number a string of decimal digits denotes, read from the left. *)
Fixpoint digits_value (acc : N) (s : string) : option N :=
  match s with
  | EmptyString => Some acc
  | String c s' =>
      match digit_of c with
      | Some d => digits_value (10 * acc + d)%N s'
      | None => None
      end
  end.

(** [s] is the decimal numeral of [n]: digits only, at least one, no
    zero in front of another digit, and the value is [n]. *)
Definition decimal_numeral (n : N) (s : string) : Prop :=
  s <> "" /\
  digits_value 0 s = Some n /\
  (forall s', s = String "0" s' -> s' = "").

(** ** JSON texts

    What a text denotes as JSON, and what it means for it to be indented.
    Both read the text alone; neither looks at how [Json.encode] is
    written.  They are the measure for what the script writes. *)

Module Text.

Definition is_ws (c : ascii) : bool :=
  Ascii.eqb c " " || Ascii.eqb c Json.newline ||
  Ascii.eqb c (ascii_of_nat 9) || Ascii.eqb c (ascii_of_nat 13).

Fixpoint skip_ws (s : string) : string :=
  match s with
  | EmptyString => ""
  | String c r => if is_ws c then skip_ws r else s
  end.

(** [strip p s]: [s] without its prefix [p], if it starts with it. *)
Fixpoint strip (p s : string) : option string :=
  match p with
  | EmptyString => Some s
  | String a p' =>
      match s with
      | EmptyString => None
      | String b s' => if Ascii.eqb a b then strip p' s' else None
      end
  end.

Fixpoint span (p : ascii -> bool) (s : string) : string * string :=
  match s with
  | EmptyString => ("", "")
  | String c r =>
      if p c then let (a, b) := span p r in (String c a, b) else ("", s)
  end.

Fixpoint all (p : ascii -> bool) (s : string) : bool :=
  match s with
  | EmptyString => true
  | String c r => p c && all p r
  end.

(** *** String literals *)

Definition hex_of (c : ascii) : option N :=
  let n := N_of_ascii c in
  if (48 <=? n)%N && (n <=? 57)%N then Some (n - 48)%N
  else if (97 <=? n)%N && (n <=? 102)%N then Some (n - 87)%N
  else if (65 <=? n)%N && (n <=? 70)%N then Some (n - 55)%N
  else None.

Definition hex4_of (a b c d : ascii) : option N :=
  match hex_of a, hex_of b, hex_of c, hex_of d with
  | Some x1, Some x2, Some x3, Some x4 =>
      Some (((x1 * 16 + x2) * 16 + x3) * 16 + x4)%N
  | _, _, _, _ => None
  end.

(** The character a two-character escape stands for. *)
Definition simple_escape (e : ascii) : option ascii :=
  if Ascii.eqb e Json.quote then Some Json.quote
  else if Ascii.eqb e "\" then Some "\"%char
  else if Ascii.eqb e "/" then Some "/"%char
  else if Ascii.eqb e "b" then Some (ascii_of_nat 8)
  else if Ascii.eqb e "f" then Some (ascii_of_nat 12)
  else if Ascii.eqb e "n" then Some (ascii_of_nat 10)
  else if Ascii.eqb e "r" then Some (ascii_of_nat 13)
  else if Ascii.eqb e "t" then Some (ascii_of_nat 9)
  else None.

Definition is_high (u : N) : bool := (0xD800 <=? u)%N && (u <=? 0xDBFF)%N.
Definition is_low (u : N) : bool := (0xDC00 <=? u)%N && (u <=? 0xDFFF)%N.

(** The code point of a pair of surrogates. *)
Definition pair_value (hi lo : N) : N :=
  (0x10000 + ((hi - 0xD800) * 1024 + (lo - 0xDC00)))%N.

Definition prepend (pre : string) (r : option (string * string))
  : option (string * string) :=
  match r with
  | Some (s, rest) => Some (pre ++ s, rest)
  | None => None
  end.

(** The inside of a string literal, up to and including the closing
    quote: the string it denotes and the text after it.  A control
    character must be escaped; [\uxxxx] denotes a code point, a high
    surrogate followed by an escaped low surrogate denoting one code
    point above U+FFFF. *)
Fixpoint scan_string (s : string) : option (string * string) :=
  match s with
  | EmptyString => None
  | String c r =>
      if Ascii.eqb c Json.quote then Some ("", r)
      else if Ascii.eqb c "\" then
        match r with
        | EmptyString => None
        | String e r1 =>
            if Ascii.eqb e "u" then
              match r1 with
              | String h1 (String h2 (String h3 (String h4 r5))) =>
                  match hex4_of h1 h2 h3 h4 with
                  | None => None
                  | Some u =>
                      let lone :=
                        prepend (Utf8.encode u) (scan_string r5) in
                      if is_high u then
                        match r5 with
                        | String b1 (String b2 r7) =>
                            if Ascii.eqb b1 "\" && Ascii.eqb b2 "u" then
                              match r7 with
                              | String k1 (String k2
                                  (String k3 (String k4 r11))) =>
                                  match hex4_of k1 k2 k3 k4 with
                                  | None => None
                                  | Some u2 =>
                                      if is_low u2 then
                                        prepend
                                          (Utf8.encode (pair_value u u2))
                                          (scan_string r11)
                                      else lone
                                  end
                              | _ => None
                              end
                            else lone
                        | _ => lone
                        end
                      else lone
                  end
              | _ => None
              end
            else
              match simple_escape e with
              | Some ch => prepend (String ch "") (scan_string r1)
              | None => None
              end
        end
      else if (N_of_ascii c <? 32)%N then None
      else prepend (String c "") (scan_string r)
  end.

(** *** Numbers and names *)

Definition is_digit (c : ascii) : bool :=
  (48 <=? N_of_ascii c)%N && (N_of_ascii c <=? 57)%N.

(** The characters a number is made of. *)
Definition is_num_char (c : ascii) : bool :=
  is_digit c || Ascii.eqb c "-" || Ascii.eqb c "+" || Ascii.eqb c "." ||
  Ascii.eqb c "e" || Ascii.eqb c "E".

(** The integer part: a zero alone, or digits that do not start with a
    zero. *)
Definition int_part (s : string) : bool :=
  match s with
  | EmptyString => false
  | String c r =>
      if Ascii.eqb c "0" then String.eqb r "" else is_digit c && all is_digit r
  end.

(** The exponent part, if there is one: [e] or [E], a sign or none, and
    at least one digit. *)
Definition exponent (s : string) : bool :=
  match s with
  | EmptyString => true
  | String e r =>
      (Ascii.eqb e "e" || Ascii.eqb e "E") &&
      let r' :=
        match r with
        | String sg r'' =>
            if Ascii.eqb sg "+" || Ascii.eqb sg "-" then r'' else r
        | EmptyString => r
        end in
      negb (String.eqb r' "") && all is_digit r'
  end.

Definition unsigned (lex : string) : string :=
  match lex with
  | String c r => if Ascii.eqb c "-" then r else lex
  | EmptyString => lex
  end.

(** Whether a lexeme is a number, and then whether it has a fraction or
    an exponent (and so denotes a float) or neither (an integer). *)
Definition number_kind (lex : string) : option bool :=
  let (ip, rest) := span is_digit (unsigned lex) in
  if negb (int_part ip) then None
  else
    match rest with
    | EmptyString => Some false
    | String c r =>
        if Ascii.eqb c "." then
          let (fr, rest') := span is_digit r in
          if String.eqb fr "" then None
          else if exponent rest' then Some true else None
        else if exponent rest then Some true else None
    end.

Definition int_value (lex : string) : option Z :=
  match lex with
  | EmptyString => None
  | String c r =>
      if Ascii.eqb c "-"
      then option_map (fun n => (- Z.of_N n)%Z) (digits_value 0 r)
      else option_map Z.of_N (digits_value 0 lex)
  end.

(** A finite float is the float its lexeme denotes; it is carried as
    that lexeme, which is its [repr] when the text was written from a
    float. *)
Definition number (s : string) : option (value * string) :=
  let (lex, rest) := span is_num_char s in
  match number_kind lex with
  | Some false => option_map (fun z => (VInt z, rest)) (int_value lex)
  | Some true => Some (VFloat (Finite lex), rest)
  | None => None
  end.

Definition named (name : string) (v : value) (s : string)
  : option (value * string) :=
  option_map (fun r => (v, r)) (strip name s).

(** A value that is neither a string nor a container. *)
Definition scalar_of (s : string) : option (value * string) :=
  match named "null" VNone s with
  | Some r => Some r
  | None =>
  match named "true" (VBool true) s with
  | Some r => Some r
  | None =>
  match named "false" (VBool false) s with
  | Some r => Some r
  | None =>
  match named "NaN" (VFloat NaN) s with
  | Some r => Some r
  | None =>
  match named "Infinity" (VFloat PosInf) s with
  | Some r => Some r
  | None =>
  match named "-Infinity" (VFloat NegInf) s with
  | Some r => Some r
  | None => number s
  end end end end end end.

(** *** Values *)

(** One value at the head of a text, and the text after it.  [fuel]
    bounds the number of values read. *)
Fixpoint parse_value (fuel : nat) (s : string) : option (value * string) :=
  match fuel with
  | O => None
  | S f =>
      match skip_ws s with
      | EmptyString => None
      | String c r =>
          if Ascii.eqb c "[" then
            match skip_ws r with
            | EmptyString => None
            | String c' r' =>
                if Ascii.eqb c' "]" then Some (VList [], r')
                else
                  match parse_items f r with
                  | Some (l, r'') => Some (VList l, r'')
                  | None => None
                  end
            end
          else if Ascii.eqb c "{" then
            match skip_ws r with
            | EmptyString => None
            | String c' r' =>
                if Ascii.eqb c' "}" then Some (VDict [], r')
                else
                  match parse_members f r with
                  | Some (d, r'') => Some (VDict d, r'')
                  | None => None
                  end
            end
          else if Ascii.eqb c Json.quote then
            match scan_string r with
            | Some (str, r') => Some (VStr str, r')
            | None => None
            end
          else scalar_of (String c r)
      end
  end

with parse_items (fuel : nat) (s : string)
  : option (list value * string) :=
  match fuel with
  | O => None
  | S f =>
      match parse_value f s with
      | None => None
      | Some (x, r) =>
          match skip_ws r with
          | EmptyString => None
          | String c r' =>
              if Ascii.eqb c "," then
                match parse_items f r' with
                | Some (xs, r'') => Some (x :: xs, r'')
                | None => None
                end
              else if Ascii.eqb c "]" then Some ([x], r')
              else None
          end
      end
  end

with parse_members (fuel : nat) (s : string)
  : option (list (string * value) * string) :=
  match fuel with
  | O => None
  | S f =>
      match skip_ws s with
      | EmptyString => None
      | String q r =>
          if negb (Ascii.eqb q Json.quote) then None
          else
            match scan_string r with
            | None => None
            | Some (k, r1) =>
                match skip_ws r1 with
                | EmptyString => None
                | String c r2 =>
                    if negb (Ascii.eqb c ":") then None
                    else
                      match parse_value f r2 with
                      | None => None
                      | Some (x, r3) =>
                          match skip_ws r3 with
                          | EmptyString => None
                          | String c' r4 =>
                              if Ascii.eqb c' "," then
                                match parse_members f r4 with
                                | Some (kvs, r5) => Some ((k, x) :: kvs, r5)
                                | None => None
                                end
                              else if Ascii.eqb c' "}"
                              then Some ([(k, x)], r4)
                              else None
                          end
                      end
                end
            end
      end
  end.

(** The value a whole text denotes.  A text holds fewer values than
    characters, so its length is fuel enough.  The members of an object
    are listed as written. *)
Definition loads (s : string) : option value :=
  match parse_value (S (String.length s)) s with
  | Some (v, r) =>
      match skip_ws r with
      | EmptyString => Some v
      | String _ _ => None
      end
  | None => None
  end.

(** *** Indentation *)

(** Where a reader of the layout is: at the start of a line that is to
    hold an item, or of a line that is to hold a closing bracket, with so
    many spaces seen; right behind an opening bracket; right behind a
    comma; further on in the line; inside a string literal, or right
    behind a backslash in one. *)
Inductive place : Type :=
| Margin (n : nat)
| Closing (n : nat)
| Opened
| Broken
| Inline
| Quoted
| Escaped.

Definition is_open (c : ascii) : bool :=
  Ascii.eqb c "[" || Ascii.eqb c "{".

Definition is_close (c : ascii) : bool :=
  Ascii.eqb c "]" || Ascii.eqb c "}".

(** A character in the middle of a line, [depth] brackets being open.  A
    line break there must lead to a closing bracket. *)
Definition inline_step (depth : nat) (c : ascii) : option (place * nat) :=
  if Ascii.eqb c Json.quote then Some (Quoted, depth)
  else if is_open c then Some (Opened, S depth)
  else if is_close c then None
  else if Ascii.eqb c "," then Some (Broken, depth)
  else if Ascii.eqb c Json.newline then Some (Closing 0, depth)
  else Some (Inline, depth).

(** The first character of an item on its line. *)
Definition start_step (depth : nat) (c : ascii) : option (place * nat) :=
  if Ascii.eqb c Json.quote then Some (Quoted, depth)
  else if is_open c then Some (Opened, S depth)
  else if is_close c || Ascii.eqb c "," || Ascii.eqb c ":" ||
          Ascii.eqb c Json.newline
  then None
  else Some (Inline, depth).

(** One character.  An opening bracket is followed by a line break, or
    by its closing bracket when there is nothing inside; a comma is
    followed by a line break; an item starts its line behind [k] spaces
    for each bracket that is open; the bracket that closes what has
    items stands on a line of its own, behind [k] spaces for each
    bracket that stays open. *)
Definition layout_step (k : nat) (st : place * nat) (c : ascii)
  : option (place * nat) :=
  let (p, depth) := st in
  match p with
  | Quoted =>
      if Ascii.eqb c "\" then Some (Escaped, depth)
      else if Ascii.eqb c Json.quote then Some (Inline, depth)
      else Some (Quoted, depth)
  | Escaped => Some (Quoted, depth)
  | Inline => inline_step depth c
  | Opened =>
      if is_close c then Some (Inline, pred depth)
      else if Ascii.eqb c Json.newline then Some (Margin 0, depth)
      else None
  | Broken =>
      if Ascii.eqb c Json.newline then Some (Margin 0, depth) else None
  | Margin n =>
      if Ascii.eqb c " " then Some (Margin (S n), depth)
      else if Nat.eqb n (k * depth) then start_step depth c
      else None
  | Closing n =>
      if Ascii.eqb c " " then Some (Closing (S n), depth)
      else if is_close c && Nat.eqb n (k * pred depth) then
        match depth with
        | O => None
        | S d => Some (Inline, d)
        end
      else None
  end.

Fixpoint layout (k : nat) (st : place * nat) (s : string)
  : option (place * nat) :=
  match s with
  | EmptyString => Some st
  | String c r =>
      match layout_step k st c with
      | Some st' => layout k st' r
      | None => None
      end
  end.

(** The text is laid out one item a line, indented by [k] spaces a
    level, and every bracket it opens is closed. *)
Definition indented (k : nat) (s : string) : bool :=
  match layout k (Margin 0, 0) s with
  | Some (Inline, O) => true
  | _ => false
  end.

End Text.

(** Text that reads back: strings are well-formed, finite floats are
    written as numbers with a fraction or an exponent. *)
Definition float_literal (r : string) : bool :=
  Text.all Text.is_num_char r &&
  match Text.number_kind r with
  | Some true => true
  | _ => false
  end.

Fixpoint readable (v : value) : Prop :=
  match v with
  | VStr s => Utf8.valid s
  | VFloat (Finite r) => float_literal r = true
  | VList l =>
      (fix all (l : list value) : Prop :=
         match l with
         | [] => True
         | x :: l' => readable x /\ all l'
         end) l
  | VDict d =>
      (fix all (d : list (string * value)) : Prop :=
         match d with
         | [] => True
         | (k, x) :: d' => Utf8.valid k /\ readable x /\ all d'
         end) d
  | _ => True
  end.

(** The number of values in a value. *)
Fixpoint size (v : value) : nat :=
  match v with
  | VList l =>
      S ((fix sum (l : list value) : nat :=
            match l with
            | [] => 0
            | x :: l' => S (size x + sum l')
            end) l)
  | VDict d =>
      S ((fix sum (d : list (string * value)) : nat :=
            match d with
            | [] => 0
            | (_, x) :: d' => S (size x + sum d')
            end) d)
  | _ => 1
  end.

(** *** What the encoder writes, in pieces *)

Section Tails.

Variables k level : nat.

(** The items of a list after the first, as [Json.encode] writes them at
    nesting depth [level]; likewise the members of a dict. *)
Fixpoint tail_items (l : list value) : string :=
  match l with
  | [] => ""
  | y :: l' =>
      "," ++ Json.newline_indent k (S level) ++
      Json.encode k (S level) y ++ tail_items l'
  end.

Fixpoint tail_members (l : list (string * value)) : string :=
  match l with
  | [] => ""
  | (key, y) :: l' =>
      "," ++ Json.newline_indent k (S level) ++
      Json.encode_str key ++ ": " ++ Json.encode k (S level) y ++
      tail_members l'
  end.

End Tails.

(** What may follow a number: nothing, or a character no number is made
    of. *)
Definition delimited (rest : string) : Prop :=
  match rest with
  | EmptyString => True
  | String c _ => Text.is_num_char c = false
  end.

(** What a value as written starts with: no blank, no closing bracket,
    no comma and no colon. *)
Definition opens_value (s : string) : Prop :=
  exists c r, s = String c r /\ Text.is_ws c = false /\
              Ascii.eqb c "]" = false /\ Ascii.eqb c "}" = false /\
              Ascii.eqb c " " = false /\
              Ascii.eqb c "," = false /\ Ascii.eqb c ":" = false.

(** A character that changes nothing in the middle of a line. *)
Definition inert (c : ascii) : bool :=
  negb (Ascii.eqb c Json.quote) && negb (Text.is_open c) &&
  negb (Text.is_close c) && negb (Ascii.eqb c ",") &&
  negb (Ascii.eqb c Json.newline).

(** A string is well-formed when decoding it gives scalar values only
    and encoding those gives the string back. *)
Definition well_formed (s : string) : bool :=
  forallb Utf8.scalar_value (map snd (Utf8.chars s)) &&
  String.eqb (Utf8.encode_all (map snd (Utf8.chars s))) s.

(** *** Sample data *)

Definition sample_record : value :=
  VDict [("directory", VStr "/work/build");
         ("command", VStr "c++ -c /work/src/foo.cpp");
         ("file", VStr "/work/src/foo.cpp");
         ("output", VStr "build/src/foo.cpp.o")].

Definition sample_dep_record : value :=
  VDict [("file", VStr "/work/build/_deps/fmt/format.cc");
         ("output", VStr "build/_deps/foo.cpp.o")].

Definition sample_stb_record : value :=
  VDict [("directory", VStr "/work/build"); ("file", VStr "/vendor/stb.c")].

Definition sample_bare_record : value :=
  VDict [("directory", VStr "/work/build"); ("command", VStr "stb.c _deps")].

Definition sample_doc : value :=
  VList [sample_record; sample_dep_record; sample_bare_record;
         sample_stb_record].

(** A build directory [build] holding [sample_doc]; [tool] is what the
    search path answers and [st] the status the child leaves with. *)
Definition sample_host (has_db : bool) (tool : option string) (st : Z)
  : host :=
  {| argv := ["cppcheck.py"; "build"];
     path_exists := fun p =>
       has_db && String.eqb p "build/compile_commands.json";
     which := fun name =>
       if String.eqb name "cppcheck" then tool else None;
     load := fun p =>
       if has_db && String.eqb p "build/compile_commands.json"
       then Some sample_doc else None;
     write_ok := fun _ => true;
     cpu_count := Some 8;
     child := fun _ => Some st |}.

(** A host whose build directory [build] holds a database that loads as
    [doc] (or fails to load), with the tool in place, [cpus] as the answer
    of the processor count and a child that leaves with status 0. *)
Definition loading_host (doc : option value) (cpus : option nat) : host :=
  {| argv := ["cppcheck.py"; "build"];
     path_exists := fun _ => true;
     which := fun _ => Some "/usr/bin/cppcheck";
     load := fun _ => doc;
     write_ok := fun _ => true;
     cpu_count := cpus;
     child := fun _ => Some 0%Z |}.

(** *** Kinds of events and of characters *)

Definition is_write (e : event) : bool :=
  match e with
  | Write _ _ _ => true
  | _ => false
  end.

Definition is_check_call (e : event) : bool :=
  match e with
  | CheckCall _ _ _ => true
  | _ => false
  end.

(** A value that is neither a container nor a string. *)
Definition scalar (v : value) : Prop :=
  match v with
  | VNone | VBool _ | VInt _ | VFloat _ => True
  | VStr _ | VList _ | VDict _ => False
  end.

(** *** Induction on nested values *)

Section ValueInduction.

Variable P : value -> Prop.
Hypothesis P_none : P VNone.
Hypothesis P_bool : forall b, P (VBool b).
Hypothesis P_int : forall n, P (VInt n).
Hypothesis P_float : forall r, P (VFloat r).
Hypothesis P_str : forall s, P (VStr s).
Hypothesis P_list : forall l, Forall P l -> P (VList l).
Hypothesis P_dict :
  forall d, Forall (fun kv => P (snd kv)) d -> P (VDict d).

(** Induction on a value with the induction hypothesis for every item of
    a list and every value of a dict. *)
Fixpoint value_nested_ind (v : value) : P v :=
  match v with
  | VNone => P_none
  | VBool b => P_bool b
  | VInt n => P_int n
  | VFloat r => P_float r
  | VStr s => P_str s
  | VList l =>
      P_list l
        ((fix items (l : list value) : Forall P l :=
            match l with
            | [] => Forall_nil P
            | x :: l' => Forall_cons x (value_nested_ind x) (items l')
            end) l)
  | VDict d =>
      P_dict d
        ((fix items (d : list (string * value))
            : Forall (fun kv => P (snd kv)) d :=
            match d with
            | [] => Forall_nil _
            | kv :: d' =>
                Forall_cons kv (value_nested_ind (snd kv)) (items d')
            end) d)
  end.

End ValueInduction.

(** * Properties *)

(** ** Substrings *)

Lemma prefix_iff (p s : string) :
  prefix p s = true <-> exists post, s = p ++ post.
Proof.
  revert s; induction p as [|a p IH]; intros s; simpl.
  - destruct s; split; eauto.
  - destruct s as [|b s]; simpl.
    + split; [discriminate | intros [post H]; discriminate].
    + destruct (ascii_dec a b) as [->|Hne].
      * rewrite IH. split; intros [post H]; exists post.
        -- now subst.
        -- now injection H.
      * split; [discriminate | intros [post H]; injection H; congruence].
Qed.

Lemma str_contains_iff (needle s : string) :
  str_contains needle s = true <-> Substring needle s.
Proof.
  unfold Substring. induction s as [|c s IH].
  - change (str_contains needle "") with (prefix needle "" || false).
    rewrite orb_false_r, prefix_iff. split.
    + intros [post H]. now exists "", post.
    + intros [pre [post H]]. destruct pre; simpl in H.
      * now exists post.
      * discriminate.
  - change (str_contains needle (String c s))
      with (prefix needle (String c s) || str_contains needle s).
    rewrite orb_true_iff, prefix_iff, IH. split.
    + intros [[post H] | [pre [post H]]].
      * now exists "", post.
      * exists (String c pre), post. simpl. now rewrite H.
    + intros [pre [post H]]. destruct pre as [|c' pre]; simpl in H.
      * left. now exists post.
      * right. exists pre, post. now injection H.
Qed.

Lemma str_contains_false_iff (needle s : string) :
  str_contains needle s = false <-> ~ Substring needle s.
Proof.
  rewrite <- str_contains_iff. destruct (str_contains needle s); split;
    congruence.
Qed.

(** ** One record *)

Lemma entry_key_dict (d : list (string * value)) :
  entry_key (VDict d) =
  Ok (match spec_key d with Some v => v | None => VNone end).
Proof.
  unfold entry_key, spec_key, contains, subscript, dict_has, rbind.
  destruct (dict_get "output" d); [reflexivity|].
  destruct (dict_get "file" d); reflexivity.
Qed.

Lemma key_is_clean_str (s : string) :
  key_is_clean (VStr s) =
  Ok (negb (existsb (fun frag => str_contains frag s) denylist)).
Proof.
  cbv [key_is_clean contains rbind denylist existsb].
  destruct (str_contains "_deps" s); [reflexivity|].
  destruct (str_contains "cerlibTests.dir" s); [reflexivity|].
  destruct (str_contains "embedded_files" s); [reflexivity|].
  now rewrite orb_false_r.
Qed.

Lemma clean_iff (s : string) :
  negb (existsb (fun frag => str_contains frag s) denylist) = true <->
  clean s.
Proof.
  rewrite negb_true_iff. unfold clean. split.
  - intros H frag Hin Hsub. apply str_contains_iff in Hsub.
    assert (existsb (fun frag => str_contains frag s) denylist = true)
      by (apply existsb_exists; eauto).
    congruence.
  - intros H. destruct (existsb _ denylist) eqn:E; [|reflexivity].
    apply existsb_exists in E. destruct E as [frag [Hin Hc]].
    apply str_contains_iff in Hc. now apply H in Hc.
Qed.

Lemma is_valid_entry_str_key (d : list (string * value)) (s : string) :
  spec_key d = Some (VStr s) ->
  is_valid_entry (VDict d) =
  Ok (negb (existsb (fun frag => str_contains frag s) denylist)).
Proof.
  intros H. unfold is_valid_entry. rewrite entry_key_dict, H.
  cbv [rbind]. apply key_is_clean_str.
Qed.

Lemma is_valid_entry_no_key (d : list (string * value)) :
  spec_key d = None -> is_valid_entry (VDict d) = Ok true.
Proof.
  intros H. unfold is_valid_entry. now rewrite entry_key_dict, H.
Qed.

Lemma record_total (v : value) :
  record v -> exists keep, is_valid_entry v = Ok keep.
Proof.
  intros [d [-> [Ho Hf]]]. destruct (spec_key d) as [k|] eqn:E.
  - assert (exists s, k = VStr s) as [s ->].
    { unfold spec_key in E. destruct (dict_get "output" d) eqn:Eo.
      - injection E as <-. eauto.
      - eauto. }
    rewrite (is_valid_entry_str_key _ _ E). eauto.
  - rewrite (is_valid_entry_no_key _ E). eauto.
Qed.

(** ** The comprehension *)

Lemma filter_doc_list (xs : list value) :
  filter_doc (VList xs) = filter_entries xs.
Proof. reflexivity. Qed.

Lemma filter_entries_inv (xs ys : list value) :
  filter_entries xs = Ok ys ->
  ys = filter keeps xs /\
  Forall (fun x => is_valid_entry x = Ok (keeps x)) xs.
Proof.
  revert ys; induction xs as [|x xs IH]; intros ys H; simpl in H.
  - injection H as <-. split; constructor.
  - unfold rbind in H. destruct (is_valid_entry x) as [b|] eqn:Ex;
      [|discriminate].
    destruct (filter_entries xs) as [kept|]; [|discriminate].
    injection H as <-. destruct (IH kept eq_refl) as [-> HF].
    assert (keeps x = b) as Hk by (unfold keeps; rewrite Ex; now destruct b).
    split.
    + simpl. rewrite Hk. reflexivity.
    + constructor; [now rewrite Hk | exact HF].
Qed.

Lemma filter_entries_all_ok (xs : list value) :
  Forall (fun x => exists b, is_valid_entry x = Ok b) xs ->
  filter_entries xs = Ok (filter keeps xs).
Proof.
  induction 1 as [|x xs [b Hb] _ IH]; simpl; [reflexivity|].
  rewrite Hb, IH. unfold keeps. rewrite Hb. now destruct b.
Qed.

Lemma filter_entries_total (xs : list value) :
  Forall record xs -> exists ys, filter_entries xs = Ok ys.
Proof.
  intros H. exists (filter keeps xs). apply filter_entries_all_ok.
  eapply Forall_impl; [|exact H]. exact record_total.
Qed.

Lemma filter_Subseq {A : Type} (f : A -> bool) (xs : list A) :
  Subseq (filter f xs) xs.
Proof.
  induction xs as [|x xs IH]; simpl; [constructor|].
  destruct (f x); now constructor.
Qed.

Lemma Subseq_In {A : Type} (ys xs : list A) :
  Subseq ys xs -> forall y, In y ys -> In y xs.
Proof.
  induction 1; simpl; intuition.
Qed.

Lemma picked_at_shift {A : Type} (x : A) idx xs ys :
  picked_at idx xs ys -> picked_at (map S idx) (x :: xs) ys.
Proof.
  intros [Hs Hf]. split.
  - clear Hf. induction Hs as [|i idx Hs IH Hlt]; simpl; constructor.
    + exact IH.
    + rewrite Forall_map. eapply Forall_impl; [|exact Hlt].
      intros j Hj. simpl. lia.
  - clear Hs. induction Hf; simpl; constructor; assumption.
Qed.

Lemma picked_at_first {A : Type} (x : A) idx xs ys :
  picked_at idx xs ys -> picked_at (0 :: map S idx)%list (x :: xs) (x :: ys).
Proof.
  intros H. destruct (picked_at_shift x _ _ _ H) as [Hs Hf]. split.
  - constructor; [exact Hs|]. rewrite Forall_map. apply Forall_forall.
    intros j _. lia.
  - constructor; [reflexivity | exact Hf].
Qed.

Lemma filter_picked_at {A : Type} (f : A -> bool) (xs : list A) :
  exists idx, picked_at idx xs (filter f xs).
Proof.
  induction xs as [|x xs [idx IH]]; simpl.
  - exists []. split; constructor.
  - destruct (f x).
    + eexists. apply picked_at_first. exact IH.
    + eexists. apply picked_at_shift. exact IH.
Qed.

Lemma filter_keeps_fixed (xs : list value) :
  filter_entries (filter keeps xs) = Ok (filter keeps xs).
Proof.
  induction xs as [|x xs IH]; simpl; [reflexivity|].
  destruct (keeps x) eqn:Ek; [|exact IH].
  simpl. rewrite IH. unfold keeps in Ek.
  destruct (is_valid_entry x) as [[|]|]; try discriminate. reflexivity.
Qed.



Lemma spec_key_output (d : list (string * value)) (v : value) :
  dict_get "output" d = Some v -> spec_key d = Some v.
Proof. intros H. unfold spec_key. now rewrite H. Qed.

Lemma spec_key_file (d : list (string * value)) (v : value) :
  dict_get "output" d = None -> dict_get "file" d = Some v ->
  spec_key d = Some v.
Proof. intros Ho Hf. unfold spec_key. now rewrite Ho. Qed.

Lemma is_valid_entry_of_key (d : list (string * value)) :
  is_valid_entry (VDict d) =
  match spec_key d with
  | None | Some VNone => Ok true
  | Some key => key_is_clean key
  end.
Proof.
  unfold is_valid_entry. rewrite entry_key_dict. cbv [rbind].
  destruct (spec_key d) as [[]|]; reflexivity.
Qed.

Lemma dirty_key_excluded (d : list (string * value)) (s frag : string) :
  spec_key d = Some (VStr s) -> In frag denylist -> Substring frag s ->
  is_valid_entry (VDict d) = Ok false.
Proof.
  intros Hk Hin Hsub. rewrite (is_valid_entry_str_key _ _ Hk).
  replace (existsb (fun f => str_contains f s) denylist) with true;
    [reflexivity|].
  symmetry. apply existsb_exists. exists frag. split; [exact Hin|].
  now apply str_contains_iff.
Qed.

Lemma clean_key_kept (d : list (string * value)) (s : string) :
  spec_key d = Some (VStr s) -> clean s ->
  is_valid_entry (VDict d) = Ok true.
Proof.
  intros Hk Hc. rewrite (is_valid_entry_str_key _ _ Hk).
  f_equal. now apply clean_iff.
Qed.

(** C9, as the script has it: a record with
    [output = build/_deps/foo.cpp.o] is excluded; a record with
    [output = build/src/foo.cpp.o] is kept; a record without [output]
    whose [file] holds [stb.c] anywhere is excluded. *)
Theorem filter_instances :
  (forall d, dict_get "output" d = Some (VStr "build/_deps/foo.cpp.o") ->
             is_valid_entry (VDict d) = Ok false) /\
  (forall d, dict_get "output" d = Some (VStr "build/src/foo.cpp.o") ->
             is_valid_entry (VDict d) = Ok true) /\
  (forall d pre post,
      dict_get "output" d = None ->
      dict_get "file" d = Some (VStr (pre ++ "stb.c" ++ post)) ->
      is_valid_entry (VDict d) = Ok false).
Proof.
  split; [|split].
  - intros d H. rewrite (is_valid_entry_str_key _ _ (spec_key_output _ _ H)).
    reflexivity.
  - intros d H. rewrite (is_valid_entry_str_key _ _ (spec_key_output _ _ H)).
    reflexivity.
  - intros d pre post Ho Hf.
    apply (dirty_key_excluded d _ "stb.c" (spec_key_file _ _ Ho Hf)).
    + simpl. tauto.
    + now exists pre, post.
Qed.

Lemma filter_instances_witness :
  is_valid_entry (VDict [("output", VStr "build/_deps/foo.cpp.o")])
    = Ok false /\
  is_valid_entry (VDict [("output", VStr "build/src/foo.cpp.o")])
    = Ok true /\
  is_valid_entry (VDict [("file", VStr "/vendor/stb.c")]) = Ok false /\
  is_valid_entry (VDict [("file", VStr "/x/stb.c.bak")]) = Ok false.
Proof.
  destruct filter_instances as [H1 [H2 H3]].
  split; [|split; [|split]].
  - apply H1. reflexivity.
  - apply H2. reflexivity.
  - apply (H3 _ "/vendor/" ""); reflexivity.
  - apply (H3 _ "/x/" ".bak"); reflexivity.
Defined.

(** C9 as written fails: this record has a [file] that holds [stb.c],
    and it is kept, because its [output] is consulted instead. *)
Lemma stb_file_kept_behind_clean_output :
  dict_get "file" [("file", VStr "/vendor/stb.c");
                   ("output", VStr "build/src/foo.cpp.o")]
    = Some (VStr "/vendor/stb.c") /\
  Substring "stb.c" "/vendor/stb.c" /\
  is_valid_entry (VDict [("file", VStr "/vendor/stb.c");
                         ("output", VStr "build/src/foo.cpp.o")])
    = Ok true.
Proof.
  split; [reflexivity|]. split; [now exists "/vendor/", ""|reflexivity].
Qed.

(** C10: for a record with an [output], the verdict is a function of
    that value alone: two records with the same [output] get the same
    verdict whatever their [file]; so a clean [output] keeps the record
    even when [file] holds a denied fragment. *)
Theorem output_decides :
  (forall d1 d2 v,
      dict_get "output" d1 = Some v -> dict_get "output" d2 = Some v ->
      is_valid_entry (VDict d1) = is_valid_entry (VDict d2)) /\
  (forall d s,
      dict_get "output" d = Some (VStr s) -> clean s ->
      is_valid_entry (VDict d) = Ok true).
Proof.
  split.
  - intros d1 d2 v H1 H2. rewrite !is_valid_entry_of_key.
    now rewrite (spec_key_output _ _ H1), (spec_key_output _ _ H2).
  - intros d s H Hc. exact (clean_key_kept _ _ (spec_key_output _ _ H) Hc).
Qed.

Lemma output_decides_witness :
  is_valid_entry (VDict [("file", VStr "/vendor/stb.c");
                         ("output", VStr "build/src/foo.cpp.o")]) =
  is_valid_entry (VDict [("output", VStr "build/src/foo.cpp.o");
                         ("file", VStr "/work/src/foo.cpp")]) /\
  is_valid_entry (VDict [("file", VStr "/vendor/stb.c");
                         ("output", VStr "build/src/foo.cpp.o")]) = Ok true.
Proof.
  split.
  - apply (proj1 output_decides _ _ (VStr "build/src/foo.cpp.o"));
      reflexivity.
  - apply (proj2 output_decides _ "build/src/foo.cpp.o"); [reflexivity|].
    apply clean_iff. reflexivity.
Defined.

(** C6: the comprehension returns its input with some records left out:
    the output is a subsequence of the input, every output record is an
    input record, the output is read off the input at increasing
    positions, and it is exactly the records [is_valid_entry] answered
    [True] for.  On a list of records the comprehension does return. *)
Theorem filter_is_subsequence :
  (forall xs ys,
      filter_doc (VList xs) = Ok ys ->
      Subseq ys xs /\
      (forall y, In y ys -> In y xs) /\
      (exists idx, picked_at idx xs ys) /\
      ys = filter keeps xs) /\
  (forall xs, Forall record xs -> exists ys, filter_doc (VList xs) = Ok ys).
Proof.
  split.
  - intros xs ys H. rewrite filter_doc_list in H.
    destruct (filter_entries_inv _ _ H) as [-> _].
    split; [|split; [|split; [|reflexivity]]].
    + apply filter_Subseq.
    + apply Subseq_In, filter_Subseq.
    + apply filter_picked_at.
  - intros xs H. rewrite filter_doc_list. now apply filter_entries_total.
Qed.

Lemma filter_is_subsequence_witness :
  filter_doc sample_doc = Ok [sample_record; sample_bare_record] /\
  Subseq [sample_record; sample_bare_record]
         [sample_record; sample_dep_record; sample_bare_record;
          sample_stb_record].
Proof.
  split; [reflexivity|].
  apply (proj1 filter_is_subsequence). reflexivity.
Defined.

(** C7: filtering what the filter returned returns it unchanged; this
    holds for whatever the script iterated over, and on a list of records
    both passes do return. *)
Theorem filter_idempotent :
  (forall doc ys,
      filter_doc doc = Ok ys -> filter_doc (VList ys) = Ok ys) /\
  (forall xs,
      Forall record xs ->
      exists ys, filter_doc (VList xs) = Ok ys /\
                 filter_doc (VList ys) = Ok ys).
Proof.
  assert (forall doc ys,
             filter_doc doc = Ok ys -> filter_doc (VList ys) = Ok ys) as H.
  { intros doc ys H. unfold filter_doc in H.
    destruct (iterate doc) as [objs|]; [|discriminate]. cbv [rbind] in H.
    destruct (filter_entries_inv _ _ H) as [-> _].
    rewrite filter_doc_list. apply filter_keeps_fixed. }
  split; [exact H|].
  intros xs Hr. destruct (filter_entries_total xs Hr) as [ys Hys].
  exists ys. rewrite filter_doc_list. split; [exact Hys|].
  apply (H (VList xs)). now rewrite filter_doc_list.
Qed.

Lemma filter_idempotent_witness :
  filter_doc sample_doc = Ok [sample_record; sample_bare_record] /\
  filter_doc (VList [sample_record; sample_bare_record]) =
  Ok [sample_record; sample_bare_record].
Proof.
  split; [reflexivity|].
  apply (proj1 filter_idempotent sample_doc). reflexivity.
Defined.

(** ** The script *)

(** Every run of the script is one of the ways of [Run]. *)
Lemma main_runs (h : host) : Run h (main h).
Proof.
  cbv [main sys_argv os_path_exists shutil_which json_load write_file
       multiprocessing_cpu_count check_call print2 lift bind emit ret
       raise sys_exit app].
  destruct (nth_error (argv h) 1) as [bd|] eqn:Ea;
    [|now apply Run_no_argument].
  destruct (path_exists h (os_path_join bd "compile_commands.json")) eqn:Ex;
    cbv [negb]; [|now apply Run_no_database].
  destruct (which h "cppcheck") as [cmd|] eqn:Ew;
    [|now apply (Run_no_tool h bd None)].
  destruct (falsy (Some cmd)) eqn:Ef;
    [now apply (Run_no_tool h bd (Some cmd))|].
  assert (cmd <> "") as Hcmd by (now apply String.eqb_neq).
  destruct (load h (os_path_join bd "compile_commands.json")) as [doc|] eqn:El;
    [|now apply (Run_load_failed h bd cmd)].
  destruct (filter_doc doc) as [ys|e] eqn:Efd;
    [|now apply (Run_filter_failed h bd cmd doc e)].
  destruct (write_ok h (os_path_join bd "compile_commands_cppcheck.json"))
    eqn:Ewr; [|now apply (Run_write_failed h bd cmd doc ys)].
  destruct (cpu_count h) as [n|] eqn:Ec;
    [|now apply (Run_count_failed h bd cmd doc ys)].
  destruct (child h _) as [c|] eqn:Ech;
    [|now apply (Run_spawn_failed h bd cmd doc ys n)].
  destruct c as [|p|p].
  - now apply (Run_success h bd cmd doc ys n).
  - now apply (Run_child_failed h bd cmd doc ys n (Z.pos p)).
  - now apply (Run_child_failed h bd cmd doc ys n (Z.neg p)).
Qed.

Ltac run_cases h :=
  unfold database_existed, tool_found, child_exited, wrote_something,
    called_something, trace, exit_status, stderr_message;
  generalize (main_runs h); generalize (main h);
  let r := fresh "r" in
  let Hrun := fresh "Hrun" in
  intros r Hrun; destruct Hrun; cbn [fst snd].

Ltac events :=
  cbv [events_to_count events_to_write events_to_load events_to_which
       app In].

Ltac in_events H :=
  cbv [events_to_count events_to_write events_to_load events_to_which
       app In] in H;
  repeat (destruct H as [H|H]);
  try discriminate H; try contradiction.

Lemma str_append_assoc (a b c : string) : (a ++ b) ++ c = a ++ b ++ c.
Proof.
  induction a as [|x a IH]; simpl; [reflexivity | now rewrite IH].
Qed.

Lemma str_append_cancel (a b c : string) : a ++ b = a ++ c -> b = c.
Proof.
  induction a as [|x a IH]; simpl; intros H; [exact H|].
  apply IH. now injection H.
Qed.

(** Both files are named under one and the same directory prefix. *)
Lemma paths_share_directory (bd : string) :
  exists dir,
    (dir = bd \/ dir = bd ++ "/") /\
    database_path bd = dir ++ "compile_commands.json" /\
    filtered_path bd = dir ++ "compile_commands_cppcheck.json".
Proof.
  unfold database_path, filtered_path, os_path_join.
  change (starts_with "compile_commands.json" "/") with false.
  change (starts_with "compile_commands_cppcheck.json" "/") with false.
  cbv iota. destruct (String.eqb bd "" || ends_with_slash bd).
  - exists bd. auto.
  - exists (bd ++ "/"). rewrite !str_append_assoc. auto.
Qed.

Lemma filtered_path_fresh (bd : string) :
  filtered_path bd <> database_path bd.
Proof.
  destruct (paths_share_directory bd) as [dir [_ [-> ->]]].
  intros H. apply str_append_cancel in H. discriminate H.
Qed.

(** The layout of a list under an indentation of two: empty, it is a
    pair of brackets; otherwise the first item opens a line of its own
    behind two spaces and the closing bracket stands alone on the last
    line. *)
Lemma dumps_list_layout (ys : list value) :
  match ys with
  | [] => Json.dumps (VList ys) 2 = "[]"
  | y :: _ =>
      exists body,
        Json.dumps (VList ys) 2 =
        "[" ++ String Json.newline "  " ++ Json.encode 2 1 y ++ body ++
        String Json.newline "]"
  end.
Proof.
  destruct ys as [|y ys]; [reflexivity|].
  unfold Json.dumps. cbn [Json.encode]. eexists. reflexivity.
Qed.

Example dumps_nested :
  Json.dumps (VList [VInt 1; VList [VInt (-2); VNone]; VDict []; VList []]) 2
  = "[
  1,
  [
    -2,
    null
  ],
  {},
  []
]".
Proof. reflexivity. Qed.

(** C5: when [compile_commands.json] is not directly under the build
    directory, the existence test is the only thing that happens: the
    script leaves with status 1 and a message that ends in the name of
    the directory, and nothing is written. *)
Theorem missing_database_aborts (h : host) (bd : string) :
  nth_error (argv h) 1 = Some bd ->
  path_exists h (database_path bd) = false ->
  trace h = [Exists (database_path bd) false] /\
  exit_status h = 1%Z /\
  stderr_message h =
    Some ("error: compile_commands.json not found in " ++ bd) /\
  Substring bd ("error: compile_commands.json not found in " ++ bd) /\
  ~ wrote_something h /\
  ~ called_something h.
Proof.
  intros Ha Hx. revert Ha Hx. run_cases h; intros Ha Hx;
    try congruence.
  assert (bd0 = bd) as -> by congruence.
  repeat (split; [reflexivity|]). split.
  - exists "error: compile_commands.json not found in ", "".
    clear. induction bd as [|c s IH]; [reflexivity|].
    simpl in *. now injection IH as <-.
  - split.
    + intros [p [c [ok Hin]]]. in_events Hin.
    + intros [a [s [st Hin]]]. in_events Hin.
Qed.

Lemma missing_database_aborts_witness :
  exit_status (sample_host false (Some "/usr/bin/cppcheck") 0) = 1%Z /\
  ~ wrote_something (sample_host false (Some "/usr/bin/cppcheck") 0).
Proof.
  destruct (missing_database_aborts
              (sample_host false (Some "/usr/bin/cppcheck") 0) "build"
              eq_refl eq_refl) as [_ [H1 [_ [_ [H2 _]]]]].
  split; assumption.
Defined.

(** A run that leaves with status 0 went through the whole script, in
    this order. *)
Lemma success_trace (h : host) :
  exit_status h = 0%Z ->
  exists bd cmd doc ys n,
    nth_error (argv h) 1 = Some bd /\
    which h "cppcheck" = Some cmd /\
    cpu_count h = Some n /\
    filter_doc doc = Ok ys /\
    trace h =
      [Exists (database_path bd) true;
       Print ("Performing Cppcheck checks in directory: " ++ bd ++
              String Json.newline "");
       Which "cppcheck" (Some cmd);
       Print ("Found cppcheck: " ++ cmd ++ String Json.newline "");
       Load (database_path bd) (Some doc);
       Write (filtered_path bd) (Json.dumps (VList ys) 2) true;
       CpuCount (Some n);
       CheckCall (cppcheck_args cmd bd n) false (Some 0%Z)].
Proof.
  run_cases h; try discriminate. intros _.
  exists bd, cmd, doc, ys, n. repeat (split; [assumption|]). reflexivity.
Qed.

(** C2, as the script has it: with the database present and no
    [cppcheck] on the search path the script leaves with status 1 right
    after the search: the database is not loaded, nothing is written and
    no child is started.  The order of a complete run is: existence test,
    search for the tool, load, filter, write, processor count, child. *)
Theorem missing_tool_aborts_before_load :
  (forall h bd,
      nth_error (argv h) 1 = Some bd ->
      path_exists h (database_path bd) = true ->
      which h "cppcheck" = None ->
      trace h = events_to_which bd None /\
      exit_status h = 1%Z /\
      stderr_message h = Some "error: unable to find cppcheck" /\
      ~ wrote_something h /\
      ~ called_something h) /\
  (forall h,
      exit_status h = 0%Z ->
      exists bd cmd doc ys n,
        filter_doc doc = Ok ys /\
        trace h =
          [Exists (database_path bd) true;
           Print ("Performing Cppcheck checks in directory: " ++ bd ++
                  String Json.newline "");
           Which "cppcheck" (Some cmd);
           Print ("Found cppcheck: " ++ cmd ++ String Json.newline "");
           Load (database_path bd) (Some doc);
           Write (filtered_path bd) (Json.dumps (VList ys) 2) true;
           CpuCount (Some n);
           CheckCall (cppcheck_args cmd bd n) false (Some 0%Z)]).
Proof.
  split.
  - intros h bd Ha Hx Hw. revert Ha Hx Hw. run_cases h; intros Ha Hx Hw;
      try congruence.
    assert (bd0 = bd) as -> by congruence.
    assert (found = None) as -> by congruence.
    repeat (split; [reflexivity|]). split.
    + intros [p [c [ok Hin]]]. in_events Hin.
    + intros [a [s [st Hin]]]. in_events Hin.
  - intros h H. destruct (success_trace h H)
      as [bd [cmd [doc [ys [n [_ [_ [_ [Hf Ht]]]]]]]]].
    exists bd, cmd, doc, ys, n. split; assumption.
Qed.

Lemma missing_tool_aborts_before_load_witness :
  trace (sample_host true None 0) = events_to_which "build" None /\
  exit_status (sample_host true None 0) = 1%Z.
Proof.
  destruct (proj1 missing_tool_aborts_before_load
              (sample_host true None 0) "build" eq_refl eq_refl eq_refl)
    as [H1 [H2 _]].
  split; assumption.
Defined.

(** C2 as written fails: here the database is present and the tool is
    not, and the run ends without the filtered file being written. *)
Lemma filtered_file_not_written_without_tool :
  path_exists (sample_host true None 0) "build/compile_commands.json"
    = true /\
  which (sample_host true None 0) "cppcheck" = None /\
  exit_status (sample_host true None 0) = 1%Z /\
  ~ wrote_something (sample_host true None 0).
Proof.
  repeat (split; [reflexivity|]).
  intros [p [c [ok Hin]]]. vm_compute in Hin.
  repeat (destruct Hin as [Hin|Hin]); try discriminate Hin; contradiction.
Qed.

(** The script ends with status 0 exactly when the database was there,
    the tool was found and the child left with status 0; a child that
    leaves with another status makes [check_call] raise, nothing catches
    it, and the script ends with status 1. *)
Lemma exit_status_zero_iff (h : host) :
  (exit_status h = 0%Z <->
   database_existed h /\ tool_found h /\ child_exited h 0) /\
  (forall c, c <> 0%Z -> child_exited h c ->
             exit_status h = 1%Z /\
             snd (main h) = inr (Uncaught (CalledProcessError c))).
Proof.
  split.
  - split.
    + intros H. destruct (success_trace h H)
        as [bd [cmd [doc [ys [n [Ha [_ [_ [_ Ht]]]]]]]]].
      unfold database_existed, tool_found, child_exited. rewrite Ht.
      split; [|split].
      * exists bd. split; [exact Ha|]. simpl. auto.
      * exists cmd. simpl. auto.
      * exists (cppcheck_args cmd bd n), false. simpl. auto 10.
    + intros [_ [_ Hc]]. revert Hc. run_cases h; try reflexivity;
        intros [a [s Hin]]; in_events Hin.
      congruence.
  - intros c Hc. run_cases h; intros [a [s Hin]]; in_events Hin.
    + assert (c0 = c) as -> by congruence. split; reflexivity.
    + congruence.
Qed.

(** A run that reaches the child has printed its two lines. *)
Lemma child_exited_printed (h : host) (c : Z) :
  child_exited h c -> existsb is_print (trace h) = true.
Proof.
  run_cases h; intros [a [s Hin]]; in_events Hin; reflexivity.
Qed.

(** A run whose child left with status 0 ended without an error. *)
Lemma child_exited_zero_ended (h : host) :
  child_exited h 0 -> ended_in_error h = false.
Proof.
  unfold ended_in_error.
  run_cases h; intros [a [s Hin]]; in_events Hin;
    try reflexivity; congruence.
Qed.

(** A failing script is a failing process, flush or no flush. *)
Lemma process_status_nonzero (io : streams) (h : host) :
  exit_status h <> 0%Z -> process_status io h <> 0%Z.
Proof.
  unfold process_status. intros H.
  destruct ((existsb is_print (trace h) && negb (stdout_flushes io)) ||
            (ended_in_error h && negb (stderr_flushes io)));
    [discriminate | exact H].
Qed.

(** C3, as the program has it: the process leaves with status 0 exactly
    when the database was there, the tool was found, the child left with
    status 0 and the interpreter could flush standard output at exit;
    when that flush fails the status is 120.  A child that leaves with
    another status makes [check_call] raise, nothing catches it, and the
    process leaves with a status other than 0. *)
Theorem process_status_zero_iff (io : streams) (h : host) :
  (process_status io h = 0%Z <->
   database_existed h /\ tool_found h /\ child_exited h 0 /\
   stdout_flushes io = true) /\
  (database_existed h -> tool_found h -> child_exited h 0 ->
   stdout_flushes io = false -> process_status io h = 120%Z) /\
  (forall c, c <> 0%Z -> child_exited h c ->
             snd (main h) = inr (Uncaught (CalledProcessError c)) /\
             process_status io h <> 0%Z).
Proof.
  destruct (exit_status_zero_iff h) as [Hiff Hchild].
  split; [|split].
  - split.
    + intros H. unfold process_status in H.
      destruct ((existsb is_print (trace h) && negb (stdout_flushes io)) ||
                (ended_in_error h && negb (stderr_flushes io))) eqn:E;
        [discriminate H|].
      apply Hiff in H. destruct H as [Hd [Ht Hc]].
      repeat (split; [assumption|]).
      apply orb_false_iff in E. destruct E as [E _].
      rewrite (child_exited_printed _ _ Hc) in E.
      now destruct (stdout_flushes io).
    + intros [Hd [Ht [Hc Hf]]]. unfold process_status.
      rewrite Hf, (child_exited_zero_ended h Hc), andb_false_r.
      apply Hiff. auto.
  - intros _ _ Hc Hf. unfold process_status.
    now rewrite (child_exited_printed _ _ Hc), Hf.
  - intros c Hne Hc. destruct (Hchild c Hne Hc) as [Hs Hm].
    split; [exact Hm|].
    apply process_status_nonzero. rewrite Hs. discriminate.
Qed.

Lemma process_status_zero_iff_witness :
  process_status {| stdout_flushes := true; stderr_flushes := true |}
    (sample_host true (Some "/usr/bin/cppcheck") 0) = 0%Z /\
  process_status {| stdout_flushes := true; stderr_flushes := true |}
    (sample_host true (Some "/usr/bin/cppcheck") 2) <> 0%Z.
Proof.
  split.
  - apply (proj1 (process_status_zero_iff _ _)).
    split; [|split; [|split]].
    + exists "build". split; [reflexivity|]. vm_compute. auto.
    + exists "/usr/bin/cppcheck". vm_compute. auto.
    + eexists. eexists. vm_compute. do 7 right. left. reflexivity.
    + reflexivity.
  - apply (proj2 (proj2 (process_status_zero_iff _ _)) 2%Z);
      [discriminate|].
    eexists. eexists. vm_compute. do 7 right. left. reflexivity.
Defined.

(** C3 as written fails: here the database is there, the tool is found
    and the child leaves with status 0, yet the process leaves with
    status 120 because standard output cannot be flushed. *)
Lemma status_120_when_flush_fails :
  database_existed (sample_host true (Some "/usr/bin/cppcheck") 0) /\
  tool_found (sample_host true (Some "/usr/bin/cppcheck") 0) /\
  child_exited (sample_host true (Some "/usr/bin/cppcheck") 0) 0 /\
  process_status {| stdout_flushes := false; stderr_flushes := true |}
    (sample_host true (Some "/usr/bin/cppcheck") 0) = 120%Z /\
  process_status {| stdout_flushes := false; stderr_flushes := true |}
    (sample_host true (Some "/usr/bin/cppcheck") 0) <> 0%Z.
Proof.
  split; [|split; [|split; [|split]]].
  - exists "build". split; [reflexivity|]. vm_compute. auto.
  - exists "/usr/bin/cppcheck". vm_compute. auto.
  - eexists. eexists. vm_compute. do 7 right. left. reflexivity.
  - reflexivity.
  - discriminate.
Qed.

(** ** The numeral of the processor count *)

Lemma digits_value_uint_nat (d : Decimal.uint) (a : nat) :
  digits_value (N.of_nat a) (NilEmpty.string_of_uint d) =
  Some (N.of_nat (Nat.of_uint_acc d a)).
Proof.
  revert a; induction d; intros a; cbn [NilEmpty.string_of_uint
    digits_value Nat.of_uint_acc]; [reflexivity|..];
    match goal with
    | |- context [digit_of ?c] =>
        let v := eval vm_compute in (digit_of c) in
        change (digit_of c) with v; cbv iota beta
    end;
    rewrite <- IHd; f_equal; rewrite Nat.tail_mul_spec; lia.
Qed.

Lemma unorm_fixed_no_leading_zero (d d' : Decimal.uint) :
  Decimal.unorm d = d -> d = Decimal.D0 d' -> d' = Decimal.Nil.
Proof.
  intros Hn ->. rewrite unorm_D0 in Hn.
  destruct d' as [|d'|d'|d'|d'|d'|d'|d'|d'|d'|d']; [reflexivity|..];
    match goal with
    | H : Decimal.unorm ?u = _ |- _ =>
        assert (Decimal.nb_digits (Decimal.unorm u) <= Decimal.nb_digits u)
          as Hle by (apply nb_digits_unorm; discriminate);
        rewrite H in Hle; simpl in Hle; lia
    end.
Qed.

Lemma string_of_uint_zero_head (d : Decimal.uint) (s' : string) :
  NilEmpty.string_of_uint d = String "0" s' ->
  exists d', d = Decimal.D0 d' /\ s' = NilEmpty.string_of_uint d'.
Proof.
  destruct d; simpl; intros H; try discriminate H.
  injection H as <-. eauto.
Qed.

Lemma string_of_uint_nil (d : Decimal.uint) :
  NilEmpty.string_of_uint d = "" -> d = Decimal.Nil.
Proof. destruct d; simpl; intros H; try discriminate H; reflexivity. Qed.

Lemma to_uint_unorm (n : nat) :
  Decimal.unorm (Nat.to_uint n) = Nat.to_uint n.
Proof.
  rewrite <- DecimalNat.Unsigned.to_of.
  now rewrite DecimalNat.Unsigned.of_to.
Qed.

(** [str] of a count is its decimal numeral. *)
Lemma str_of_nat_numeral (n : nat) :
  decimal_numeral (N.of_nat n) (str_of_nat n).
Proof.
  unfold decimal_numeral, str_of_nat. split; [|split].
  - intros H. apply string_of_uint_nil in H.
    pose proof (to_uint_unorm n) as Hn. rewrite H in Hn. discriminate Hn.
  - change 0%N with (N.of_nat 0). rewrite digits_value_uint_nat.
    change (Nat.of_uint_acc (Nat.to_uint n) 0)
      with (Nat.of_uint (Nat.to_uint n)).
    now rewrite DecimalNat.Unsigned.of_to.
  - intros s' H. apply string_of_uint_zero_head in H.
    destruct H as [d' [Hd ->]].
    now rewrite (unorm_fixed_no_leading_zero _ _ (to_uint_unorm n) Hd).
Qed.

(** C4: whenever the script starts a child, it is the resolved
    [cppcheck] with the five arguments [--project=<filtered file>],
    [--enable=warning], [--std=c++20], [-j] and the decimal numeral of
    the processor count, handed over as a vector with [shell=False]; and
    a run that ends with status 0 did start it. *)
Theorem child_argument_vector (h : host) :
  (forall args shell st,
      In (CheckCall args shell st) (trace h) ->
      exists bd cmd n jobs,
        nth_error (argv h) 1 = Some bd /\
        which h "cppcheck" = Some cmd /\
        cpu_count h = Some n /\
        decimal_numeral (N.of_nat n) jobs /\
        args = [cmd; "--project=" ++ filtered_path bd; "--enable=warning";
                "--std=c++20"; "-j"; jobs] /\
        shell = false /\
        st = child h args) /\
  (exit_status h = 0%Z -> child_exited h 0).
Proof.
  split.
  - intros args shell st. run_cases h; intros Hin; in_events Hin;
      injection Hin as <- <- <-; exists bd, cmd, n, (str_of_nat n);
      (split; [assumption|]); (split; [assumption|]);
      (split; [assumption|]); (split; [apply str_of_nat_numeral|]);
      (split; [reflexivity|]); (split; [reflexivity|]);
      symmetry; assumption.
  - intros H. apply (proj1 (exit_status_zero_iff h)) in H. tauto.
Qed.

Lemma child_argument_vector_witness :
  exists bd cmd n jobs,
    nth_error (argv (sample_host true (Some "/usr/bin/cppcheck") 0)) 1
      = Some bd /\
    which (sample_host true (Some "/usr/bin/cppcheck") 0) "cppcheck"
      = Some cmd /\
    cpu_count (sample_host true (Some "/usr/bin/cppcheck") 0) = Some n /\
    decimal_numeral (N.of_nat n) jobs /\
    ["/usr/bin/cppcheck"; "--project=build/compile_commands_cppcheck.json";
     "--enable=warning"; "--std=c++20"; "-j"; "8"] =
    [cmd; "--project=" ++ filtered_path bd; "--enable=warning";
     "--std=c++20"; "-j"; jobs] /\
    false = false /\
    Some 0%Z =
      child (sample_host true (Some "/usr/bin/cppcheck") 0)
        ["/usr/bin/cppcheck";
         "--project=build/compile_commands_cppcheck.json";
         "--enable=warning"; "--std=c++20"; "-j"; "8"].
Proof.
  apply (proj1 (child_argument_vector
                  (sample_host true (Some "/usr/bin/cppcheck") 0))).
  vm_compute. do 7 right. left. reflexivity.
Defined.

(** ** Reading back what the encoder writes *)

Ltac euclid_go a b :=
  pose proof (N.div_mod' a b);
  pose proof (N.mod_lt a b ltac:(discriminate));
  generalize dependent (N.modulo a b); generalize dependent (N.div a b);
  intros.

Ltac euclid_step :=
  match goal with
  | |- context [N.modulo ?a ?b] => euclid_go a b
  | |- context [N.div ?a ?b] => euclid_go a b
  | H : context [N.modulo ?a ?b] |- _ => euclid_go a b
  | H : context [N.div ?a ?b] |- _ => euclid_go a b
  end.

(** Linear arithmetic with quotients and remainders by constants. *)
Ltac euclid := repeat euclid_step; lia.

(** Decides a comparison between numbers by [euclid]. *)
Ltac compare_N :=
  repeat match goal with
  | |- context [N.leb ?a ?b] =>
      first [ replace (N.leb a b) with true
                by (symmetry; apply N.leb_le; euclid)
            | replace (N.leb a b) with false
                by (symmetry; apply N.leb_gt; euclid) ]
  | |- context [N.ltb ?a ?b] =>
      first [ replace (N.ltb a b) with true
                by (symmetry; apply N.ltb_lt; euclid)
            | replace (N.ltb a b) with false
                by (symmetry; apply N.ltb_ge; euclid) ]
  | |- context [N.eqb ?a ?b] =>
      first [ replace (N.eqb a b) with true
                by (symmetry; apply N.eqb_eq; euclid)
            | replace (N.eqb a b) with false
                by (symmetry; apply N.eqb_neq; euclid) ]
  end.

Lemma code_byte (n : N) : (n < 256)%N -> Utf8.code (ascii_of_N n) = n.
Proof. intros H. unfold Utf8.code. now apply N_ascii_embedding. Qed.

Lemma chars_one (b0 : ascii) (r0 : string) :
  (Utf8.code b0 < 0xC2)%N ->
  Utf8.chars (String b0 r0) = (String b0 "", Utf8.code b0) :: Utf8.chars r0.
Proof.
  intros H.
  assert ((0xC2 <=? Utf8.code b0)%N = false) as E1
    by (apply N.leb_gt; lia).
  assert ((0xE0 <=? Utf8.code b0)%N = false) as E2
    by (apply N.leb_gt; lia).
  assert ((0xF0 <=? Utf8.code b0)%N = false) as E3
    by (apply N.leb_gt; lia).
  destruct r0 as [|b1 [|b2 [|b3 r3]]]; cbn [Utf8.chars];
    rewrite ?E1, ?E2, ?E3; reflexivity.
Qed.

Lemma chars_two (b0 b1 : ascii) (r1 : string) :
  (0xC2 <= Utf8.code b0 <= 0xDF)%N ->
  (0x80 <= Utf8.code b1 <= 0xBF)%N ->
  Utf8.chars (String b0 (String b1 r1)) =
  (String b0 (String b1 ""),
   ((Utf8.code b0 - 0xC0) * 64 + (Utf8.code b1 - 0x80))%N) :: Utf8.chars r1.
Proof.
  intros H0 H1. cbn [Utf8.chars]. unfold Utf8.is_cont.
  compare_N. reflexivity.
Qed.

Lemma chars_three (b0 b1 b2 : ascii) (r2 : string) :
  (0xE0 <= Utf8.code b0 <= 0xEF)%N ->
  (0x80 <= Utf8.code b1 <= 0xBF)%N ->
  (0x80 <= Utf8.code b2 <= 0xBF)%N ->
  (0x800 <= ((Utf8.code b0 - 0xE0) * 64 + (Utf8.code b1 - 0x80)) * 64
            + (Utf8.code b2 - 0x80))%N ->
  Utf8.chars (String b0 (String b1 (String b2 r2))) =
  (String b0 (String b1 (String b2 "")),
   (((Utf8.code b0 - 0xE0) * 64 + (Utf8.code b1 - 0x80)) * 64
    + (Utf8.code b2 - 0x80))%N) :: Utf8.chars r2.
Proof.
  intros H0 H1 H2 H3. cbn [Utf8.chars]. unfold Utf8.is_cont, Utf8.low6.
  compare_N. reflexivity.
Qed.

Lemma chars_four (b0 b1 b2 b3 : ascii) (r3 : string) :
  (0xF0 <= Utf8.code b0 <= 0xF4)%N ->
  (0x80 <= Utf8.code b1 <= 0xBF)%N ->
  (0x80 <= Utf8.code b2 <= 0xBF)%N ->
  (0x80 <= Utf8.code b3 <= 0xBF)%N ->
  (0x10000 <=
   (((Utf8.code b0 - 0xF0) * 64 + (Utf8.code b1 - 0x80)) * 64
    + (Utf8.code b2 - 0x80)) * 64 + (Utf8.code b3 - 0x80) <= 0x10FFFF)%N ->
  Utf8.chars (String b0 (String b1 (String b2 (String b3 r3)))) =
  (String b0 (String b1 (String b2 (String b3 ""))),
   ((((Utf8.code b0 - 0xF0) * 64 + (Utf8.code b1 - 0x80)) * 64
     + (Utf8.code b2 - 0x80)) * 64 + (Utf8.code b3 - 0x80))%N)
  :: Utf8.chars r3.
Proof.
  intros H0 H1 H2 H3 H4. cbn [Utf8.chars]. unfold Utf8.is_cont, Utf8.low6.
  compare_N. reflexivity.
Qed.

(** Decoding undoes encoding, one code point at a time. *)
Lemma chars_encode (cp : N) (s : string) :
  (cp <= 0x10FFFF)%N ->
  Utf8.chars (Utf8.encode cp ++ s) = (Utf8.encode cp, cp) :: Utf8.chars s.
Proof.
  intros Hcp. unfold Utf8.encode.
  destruct (N.ltb_spec cp 0x80) as [H1|H1].
  { cbn [append]. rewrite chars_one; rewrite code_byte by lia;
      [reflexivity | lia]. }
  destruct (N.ltb_spec cp 0x800) as [H2|H2].
  { cbn [append]. rewrite chars_two; rewrite ?code_byte by euclid;
      [f_equal; f_equal; euclid | euclid | euclid]. }
  destruct (N.ltb_spec cp 0x10000) as [H3|H3].
  { cbn [append]. rewrite chars_three; rewrite ?code_byte by euclid;
      [f_equal; f_equal; euclid | euclid..]. }
  cbn [append]. rewrite chars_four; rewrite ?code_byte by euclid;
    [f_equal; f_equal; euclid | euclid..].
Qed.

Lemma scalar_value_bound (cp : N) :
  Utf8.scalar_value cp = true -> (cp <= 0x10FFFF)%N.
Proof.
  unfold Utf8.scalar_value. intros H. apply orb_true_iff in H.
  destruct H as [H|H].
  - apply N.ltb_lt in H. lia.
  - apply andb_true_iff in H. destruct H as [_ H]. now apply N.leb_le in H.
Qed.

Lemma chars_encode_all (cps : list N) :
  forallb Utf8.scalar_value cps = true ->
  map snd (Utf8.chars (Utf8.encode_all cps)) = cps.
Proof.
  induction cps as [|cp cps IH]; simpl; intros H; [reflexivity|].
  apply andb_true_iff in H. destruct H as [Hc Hr].
  rewrite chars_encode by now apply scalar_value_bound.
  simpl. now rewrite IH.
Qed.

(** *** String literals *)

Lemma hex_of_hex_digit_nat (k : nat) :
  k < 16 -> Text.hex_of (Json.hex_digit k) = Some (N.of_nat k).
Proof.
  intros H. do 16 (destruct k as [|k]; [reflexivity|]). lia.
Qed.

Lemma hex_of_hex_digit (d : N) :
  (d < 16)%N -> Text.hex_of (Json.hex_digit (N.to_nat d)) = Some d.
Proof.
  intros H. rewrite hex_of_hex_digit_nat by lia. now rewrite N2Nat.id.
Qed.

Lemma hex4_of_hex4 (n : N) (t : string) :
  (n < 0x10000)%N ->
  exists h1 h2 h3 h4,
    Json.hex4 n ++ t = String h1 (String h2 (String h3 (String h4 t))) /\
    Text.hex4_of h1 h2 h3 h4 = Some n.
Proof.
  intros H. unfold Json.hex4. do 4 eexists. split; [reflexivity|].
  unfold Text.hex4_of. rewrite !hex_of_hex_digit by euclid.
  f_equal. euclid.
Qed.

Lemma scan_unicode_lone (h1 h2 h3 h4 : ascii) (r5 : string) (u : N) :
  Text.hex4_of h1 h2 h3 h4 = Some u ->
  Text.is_high u = false ->
  Text.scan_string
    (String "\" (String "u" (String h1 (String h2 (String h3
       (String h4 r5)))))) =
  Text.prepend (Utf8.encode u) (Text.scan_string r5).
Proof.
  intros Hu Hh.
  cbn -[Text.hex4_of Text.is_high Utf8.encode Text.prepend].
  now rewrite Hu, Hh.
Qed.

Lemma scan_unicode_pair (h1 h2 h3 h4 k1 k2 k3 k4 : ascii) (r : string)
  (u u2 : N) :
  Text.hex4_of h1 h2 h3 h4 = Some u ->
  Text.is_high u = true ->
  Text.hex4_of k1 k2 k3 k4 = Some u2 ->
  Text.is_low u2 = true ->
  Text.scan_string
    (String "\" (String "u" (String h1 (String h2 (String h3 (String h4
    (String "\" (String "u" (String k1 (String k2 (String k3
       (String k4 r)))))))))))) =
  Text.prepend (Utf8.encode (Text.pair_value u u2)) (Text.scan_string r).
Proof.
  intros Hu Hh Hu2 Hl.
  cbn -[Text.hex4_of Text.is_high Text.is_low Utf8.encode Text.prepend
        Text.pair_value].
  now rewrite Hu, Hh, Hu2, Hl.
Qed.

Lemma ascii_of_N_neq (cp n : N) :
  (cp < 256)%N -> (n < 256)%N -> cp <> n ->
  Ascii.eqb (ascii_of_N cp) (ascii_of_N n) = false.
Proof.
  intros H1 H2 Hne. apply Ascii.eqb_neq. intros E.
  apply (f_equal N_of_ascii) in E.
  rewrite !N_ascii_embedding in E by assumption. contradiction.
Qed.

Lemma scan_plain (cp : N) (t : string) :
  (32 <= cp < 256)%N -> cp <> 34%N -> cp <> 92%N ->
  Text.scan_string (String (ascii_of_N cp) t) =
  Text.prepend (String (ascii_of_N cp) "") (Text.scan_string t).
Proof.
  intros H Hq Hb. cbn [Text.scan_string].
  change Json.quote with (ascii_of_N 34).
  change "\"%char with (ascii_of_N 92).
  rewrite !ascii_of_N_neq by lia.
  rewrite N_ascii_embedding by lia.
  now replace (cp <? 32)%N with false by (symmetry; apply N.ltb_ge; lia).
Qed.

(** One escaped character reads back as the character. *)
Lemma scan_escape_cp (cp : N) (t : string) :
  Utf8.scalar_value cp = true ->
  Text.scan_string (Json.escape_cp cp ++ t) =
  Text.prepend (Utf8.encode cp) (Text.scan_string t).
Proof.
  intros Hs. pose proof (scalar_value_bound cp Hs) as Hb.
  unfold Utf8.scalar_value in Hs.
  unfold Json.escape_cp.
  destruct (N.eqb_spec cp 34) as [->|N1]; [reflexivity|].
  destruct (N.eqb_spec cp 92) as [->|N2]; [reflexivity|].
  destruct (N.eqb_spec cp 8) as [->|N3]; [reflexivity|].
  destruct (N.eqb_spec cp 12) as [->|N4]; [reflexivity|].
  destruct (N.eqb_spec cp 10) as [->|N5]; [reflexivity|].
  destruct (N.eqb_spec cp 13) as [->|N6]; [reflexivity|].
  destruct (N.eqb_spec cp 9) as [->|N7]; [reflexivity|].
  destruct (N.ltb cp 32 || N.ltb 126 cp) eqn:E.
  - destruct (N.ltb_spec cp 0x10000) as [H|H].
    + destruct (hex4_of_hex4 cp t H) as [h1 [h2 [h3 [h4 [Ht Hv]]]]].
      change (("\u" ++ Json.hex4 cp) ++ t)
        with (String "\" (String "u" (Json.hex4 cp ++ t))).
      rewrite Ht. apply (scan_unicode_lone _ _ _ _ _ _ Hv).
      unfold Text.is_high. apply orb_true_iff in Hs.
      destruct Hs as [Hs|Hs].
      * apply N.ltb_lt in Hs. apply andb_false_iff. left.
        apply N.leb_gt. lia.
      * apply andb_true_iff in Hs. destruct Hs as [Hs _].
        apply N.ltb_lt in Hs. apply andb_false_iff. right.
        apply N.leb_gt. lia.
    + cbv zeta.
      assert ((0xD800 + (cp - 0x10000) / 1024 < 0x10000)%N) as Hhi
        by euclid.
      assert ((0xDC00 + (cp - 0x10000) mod 1024 < 0x10000)%N) as Hlo
        by euclid.
      destruct (hex4_of_hex4 _ t Hlo) as [k1 [k2 [k3 [k4 [Hk Hkv]]]]].
      destruct (hex4_of_hex4 _ (String "\" (String "u"
                  (String k1 (String k2 (String k3 (String k4 t))))))
                  Hhi) as [h1 [h2 [h3 [h4 [Ht Hv]]]]].
      replace (("\u" ++ Json.hex4 (0xD800 + (cp - 0x10000) / 1024) ++
                "\u" ++ Json.hex4 (0xDC00 + (cp - 0x10000) mod 1024)) ++ t)
        with (String "\" (String "u"
                (Json.hex4 (0xD800 + (cp - 0x10000) / 1024) ++
                 String "\" (String "u"
                   (Json.hex4 (0xDC00 + (cp - 0x10000) mod 1024) ++ t))))).
      2:{ cbn [append]. rewrite !str_append_assoc. reflexivity. }
      rewrite Hk, Ht.
      assert (Text.is_high (0xD800 + (cp - 0x10000) / 1024) = true) as Hh.
      { unfold Text.is_high. apply andb_true_iff.
        split; apply N.leb_le; euclid. }
      assert (Text.is_low (0xDC00 + (cp - 0x10000) mod 1024) = true) as Hl.
      { unfold Text.is_low. apply andb_true_iff.
        split; apply N.leb_le; euclid. }
      rewrite (scan_unicode_pair _ _ _ _ _ _ _ _ t _ _ Hv Hh Hkv Hl).
      f_equal. f_equal. unfold Text.pair_value. euclid.
  - apply orb_false_iff in E. destruct E as [E1 E2].
    apply N.ltb_ge in E1. apply N.ltb_ge in E2.
    cbn [append]. rewrite scan_plain by lia.
    unfold Utf8.encode.
    now replace (cp <? 0x80)%N with true by (symmetry; apply N.ltb_lt; lia).
Qed.

Lemma scan_escape_all (cps : list N) (rest : string) :
  forallb Utf8.scalar_value cps = true ->
  Text.scan_string (Json.escape_all cps ++ String Json.quote rest) =
  Some (Utf8.encode_all cps, rest).
Proof.
  induction cps as [|cp cps IH]; simpl; intros H.
  - reflexivity.
  - apply andb_true_iff in H. destruct H as [Hc Hr].
    rewrite str_append_assoc, scan_escape_cp by assumption.
    now rewrite IH.
Qed.

(** A string literal reads back as the string. *)
Lemma scan_encode_str (s rest : string) :
  Utf8.valid s ->
  Text.scan_string (Json.escape s ++ String Json.quote rest)
  = Some (s, rest).
Proof.
  intros [cps [Hs ->]]. unfold Json.escape.
  rewrite chars_encode_all by assumption.
  now apply scan_escape_all.
Qed.

(** *** Numbers and names *)

Lemma span_all (p : ascii -> bool) (a rest : string) :
  Text.all p a = true ->
  match rest with
  | EmptyString => True
  | String c _ => p c = false
  end ->
  Text.span p (a ++ rest) = (a, rest).
Proof.
  intros Ha Hr. induction a as [|c a IH]; simpl.
  - destruct rest as [|c r]; [reflexivity|]. simpl. now rewrite Hr.
  - simpl in Ha. apply andb_true_iff in Ha. destruct Ha as [Hc Ha].
    now rewrite Hc, (IH Ha).
Qed.

Lemma str_append_nil (s : string) : s ++ "" = s.
Proof. induction s as [|c s IH]; simpl; [reflexivity | now rewrite IH]. Qed.

Lemma span_all_nil (p : ascii -> bool) (a : string) :
  Text.all p a = true -> Text.span p a = (a, "").
Proof.
  intros H. rewrite <- (str_append_nil a) at 1. now apply span_all.
Qed.

Lemma span_head (p : ascii -> bool) (s a b : string) (c : ascii) :
  Text.span p s = (String c a, b) ->
  exists r, s = String c r /\ p c = true.
Proof.
  destruct s as [|c' r]; simpl; [discriminate|].
  destruct (p c') eqn:E; [|discriminate].
  destruct (Text.span p r). intros H. injection H as -> _ _. eauto.
Qed.

Lemma all_digits_uint (d : Decimal.uint) :
  Text.all Text.is_digit (NilEmpty.string_of_uint d) = true.
Proof. induction d; simpl; auto. Qed.

Lemma digit_is_num_char (s : string) :
  Text.all Text.is_digit s = true -> Text.all Text.is_num_char s = true.
Proof.
  induction s as [|c s IH]; simpl; [reflexivity|].
  intros H. apply andb_true_iff in H. destruct H as [Hc Hs].
  rewrite (IH Hs). unfold Text.is_num_char. now rewrite Hc.
Qed.

Lemma int_part_uint (d : Decimal.uint) :
  Decimal.unorm d = d ->
  Text.int_part (NilEmpty.string_of_uint d) = true.
Proof.
  intros Hn.
  destruct d; try (simpl; apply all_digits_uint).
  - discriminate Hn.
  - rewrite (unorm_fixed_no_leading_zero _ _ Hn eq_refl). reflexivity.
Qed.

Lemma pos_to_uint_unorm (p : positive) :
  Decimal.unorm (Pos.to_uint p) = Pos.to_uint p.
Proof.
  rewrite <- DecimalPos.Unsigned.to_of.
  now rewrite DecimalPos.Unsigned.of_to.
Qed.

Lemma digits_value_uint_acc (d : Decimal.uint) (acc : positive) :
  digits_value (Npos acc) (NilEmpty.string_of_uint d) =
  Some (Npos (Pos.of_uint_acc d acc)).
Proof.
  revert acc; induction d; intros acc;
    cbn [NilEmpty.string_of_uint digits_value Pos.of_uint_acc];
    [reflexivity|..];
    match goal with
    | |- context [digit_of ?c] =>
        let v := eval vm_compute in (digit_of c) in
        change (digit_of c) with v; cbv iota beta
    end;
    rewrite <- IHd; f_equal; lia.
Qed.

Lemma digits_value_uint (d : Decimal.uint) :
  digits_value 0 (NilEmpty.string_of_uint d) = Some (Pos.of_uint d).
Proof.
  induction d;
    cbn [NilEmpty.string_of_uint digits_value Pos.of_uint];
    [reflexivity|..];
    match goal with
    | |- context [digit_of ?c] =>
        let v := eval vm_compute in (digit_of c) in
        change (digit_of c) with v; cbv iota beta
    end;
    [exact IHd | apply (digits_value_uint_acc d)..].
Qed.

Lemma digits_value_pos (p : positive) :
  digits_value 0 (NilEmpty.string_of_uint (Pos.to_uint p)) = Some (Npos p).
Proof.
  now rewrite digits_value_uint, DecimalPos.Unsigned.of_to.
Qed.

Lemma uint_head (d : Decimal.uint) :
  d <> Decimal.Nil ->
  exists c r, NilEmpty.string_of_uint d = String c r /\
              Text.is_digit c = true.
Proof.
  destruct d; intros H; try (now destruct H); simpl; eauto.
Qed.

Lemma number_kind_uint (d : Decimal.uint) :
  Decimal.unorm d = d -> d <> Decimal.Nil ->
  Text.number_kind (NilEmpty.string_of_uint d) = Some false /\
  Text.number_kind (String "-" (NilEmpty.string_of_uint d)) = Some false.
Proof.
  intros Hn Hd. destruct (uint_head d Hd) as [c [r [E Hc]]].
  assert (Text.unsigned (NilEmpty.string_of_uint d)
          = NilEmpty.string_of_uint d) as Hu.
  { rewrite E. unfold Text.unsigned.
    destruct (Ascii.eqb_spec c "-") as [->|]; [discriminate Hc|reflexivity]. }
  unfold Text.number_kind. cbn [Text.unsigned Ascii.eqb Bool.eqb].
  rewrite Hu, (span_all_nil _ _ (all_digits_uint d)).
  rewrite (int_part_uint d Hn). split; reflexivity.
Qed.

Lemma int_value_pos (p : positive) :
  Text.int_value (NilEmpty.string_of_uint (Pos.to_uint p))
  = Some (Zpos p).
Proof.
  pose proof (digits_value_pos p) as H.
  destruct (uint_head (Pos.to_uint p)
              (DecimalPos.Unsigned.to_uint_nonnil p)) as [c [r [E Hc]]].
  rewrite E in *. unfold Text.int_value.
  destruct (Ascii.eqb_spec c "-") as [->|]; [discriminate Hc|].
  now rewrite H.
Qed.

Lemma int_value_neg (p : positive) :
  Text.int_value (String "-" (NilEmpty.string_of_uint (Pos.to_uint p)))
  = Some (Zneg p).
Proof.
  unfold Text.int_value. cbn [Ascii.eqb Bool.eqb].
  now rewrite digits_value_pos.
Qed.

(** The head of an integer as written, and what the reader makes of the
    whole. *)
Lemma encode_int_reads (n : Z) :
  Text.all Text.is_num_char (Json.encode_int n) = true /\
  Text.number_kind (Json.encode_int n) = Some false /\
  Text.int_value (Json.encode_int n) = Some n.
Proof.
  unfold Json.encode_int. destruct n as [|p|p]; cbn [Z.to_int
    NilEmpty.string_of_int].
  - repeat split.
  - split; [apply digit_is_num_char, all_digits_uint|].
    split; [|apply int_value_pos].
    apply number_kind_uint;
      [apply pos_to_uint_unorm | apply DecimalPos.Unsigned.to_uint_nonnil].
  - split.
    + cbn [Text.all]. rewrite (digit_is_num_char _ (all_digits_uint _)).
      reflexivity.
    + split; [|apply int_value_neg].
      apply number_kind_uint;
        [apply pos_to_uint_unorm | apply DecimalPos.Unsigned.to_uint_nonnil].
Qed.

(** A text that starts like a number is no name. *)
Lemma scalar_of_number (c : ascii) (r : string) :
  Text.is_digit c = true ->
  Text.scalar_of (String c r) = Text.number (String c r) /\
  Text.scalar_of (String "-" (String c r))
  = Text.number (String "-" (String c r)).
Proof.
  destruct c as [[] [] [] [] [] [] [] []]; intros H;
    try discriminate H; split; reflexivity.
Qed.

Lemma number_head (lex : string) :
  Text.number_kind lex <> None ->
  (exists c r, lex = String c r /\ Text.is_digit c = true) \/
  (exists c r, lex = String "-" (String c r) /\ Text.is_digit c = true).
Proof.
  unfold Text.number_kind.
  destruct (Text.span Text.is_digit (Text.unsigned lex)) as [ip rest] eqn:E.
  destruct ip as [|c ip]; [intros H; now destruct H|].
  intros _. apply span_head in E. destruct E as [r [E Hc]].
  unfold Text.unsigned in E. destruct lex as [|c0 lex]; [discriminate E|].
  destruct (Ascii.eqb_spec c0 "-") as [->|].
  - right. subst lex. eauto.
  - left. injection E as -> ->. eauto.
Qed.

Lemma number_reads (lex rest : string) :
  Text.all Text.is_num_char lex = true ->
  Text.number_kind lex <> None ->
  delimited rest ->
  Text.scalar_of (lex ++ rest) = Text.number (lex ++ rest) /\
  Text.number (lex ++ rest) =
  match Text.number_kind lex with
  | Some false =>
      option_map (fun z => (VInt z, rest)) (Text.int_value lex)
  | Some true => Some (VFloat (Finite lex), rest)
  | None => None
  end.
Proof.
  intros Ha Hk Hr. split.
  - destruct (number_head lex Hk) as [[c [r [-> Hc]]]|[c [r [-> Hc]]]];
      cbn [append]; now apply scalar_of_number.
  - unfold Text.number. now rewrite (span_all _ _ _ Ha Hr).
Qed.

Lemma scalar_of_int (n : Z) (rest : string) :
  delimited rest ->
  Text.scalar_of (Json.encode_int n ++ rest) = Some (VInt n, rest).
Proof.
  intros Hr. destruct (encode_int_reads n) as [Ha [Hk Hv]].
  destruct (number_reads (Json.encode_int n) rest Ha) as [H1 H2];
    [rewrite Hk; discriminate | exact Hr |].
  now rewrite H1, H2, Hk, Hv.
Qed.

Lemma scalar_of_float (r rest : string) :
  float_literal r = true ->
  delimited rest ->
  Text.scalar_of (r ++ rest) = Some (VFloat (Finite r), rest).
Proof.
  unfold float_literal. intros H Hr. apply andb_true_iff in H.
  destruct H as [Ha Hk].
  destruct (Text.number_kind r) as [[|]|] eqn:E; try discriminate Hk.
  destruct (number_reads r rest Ha) as [H1 H2];
    [rewrite E; discriminate | exact Hr |].
  now rewrite H1, H2, E.
Qed.

(** The reader takes a text that starts like a number for a scalar. *)
Lemma parse_value_number (f : nat) (lex rest : string) :
  Text.number_kind lex <> None ->
  Text.parse_value (S f) (lex ++ rest) = Text.scalar_of (lex ++ rest).
Proof.
  intros Hk.
  destruct (number_head lex Hk) as [[c [r [-> Hc]]]|[c [r [-> Hc]]]].
  - cbn [append].
    destruct c as [[] [] [] [] [] [] [] []]; try discriminate Hc;
      reflexivity.
  - reflexivity.
Qed.

(** *** Values *)

Lemma encode_list_cons (k level : nat) (x : value) (xs : list value) :
  Json.encode k level (VList (x :: xs)) =
  "[" ++ Json.newline_indent k (S level) ++ Json.encode k (S level) x ++
  tail_items k level xs ++ Json.newline_indent k level ++ "]".
Proof. reflexivity. Qed.

Lemma encode_dict_cons (k level : nat) (key : string) (x : value)
  (kvs : list (string * value)) :
  Json.encode k level (VDict ((key, x) :: kvs)) =
  "{" ++ Json.newline_indent k (S level) ++
  Json.encode_str key ++ ": " ++ Json.encode k (S level) x ++
  tail_members k level kvs ++ Json.newline_indent k level ++ "}".
Proof. reflexivity. Qed.

Lemma readable_list (l : list value) :
  readable (VList l) <-> Forall readable l.
Proof.
  induction l as [|x l IH]; simpl.
  - split; constructor.
  - split.
    + intros [Hx Hl]. constructor; [exact Hx | now apply IH].
    + intros H. inversion H; subst. split; [assumption | now apply IH].
Qed.

Lemma readable_dict (d : list (string * value)) :
  readable (VDict d) <->
  Forall (fun kv => Utf8.valid (fst kv) /\ readable (snd kv)) d.
Proof.
  induction d as [|[k x] d IH]; simpl.
  - split; constructor.
  - split.
    + intros [Hk [Hx Hl]]. constructor; [now split | now apply IH].
    + intros H. inversion H as [|? ? [Hk Hx] Hd]; subst.
      repeat split; [assumption.. | now apply IH].
Qed.

Lemma skip_ws_spaces (n : nat) (t : string) :
  Text.skip_ws (Json.spaces n ++ t) = Text.skip_ws t.
Proof. induction n; simpl; auto. Qed.

Lemma skip_ws_newline_indent (k level : nat) (t : string) :
  Text.skip_ws (Json.newline_indent k level ++ t) = Text.skip_ws t.
Proof.
  unfold Json.newline_indent. cbn [append].
  change (Text.skip_ws (String Json.newline ?x)) with (Text.skip_ws x).
  apply skip_ws_spaces.
Qed.

Lemma skip_ws_idem (s : string) :
  Text.skip_ws (Text.skip_ws s) = Text.skip_ws s.
Proof.
  induction s as [|c s IH]; simpl; [reflexivity|].
  destruct (Text.is_ws c) eqn:E; [exact IH|]. simpl. now rewrite E.
Qed.

(** The three readers start by skipping blanks. *)
Lemma parse_value_skip (f : nat) (s : string) :
  Text.parse_value f (Text.skip_ws s) = Text.parse_value f s.
Proof.
  destruct f; [reflexivity|]. cbn [Text.parse_value].
  now rewrite skip_ws_idem.
Qed.

Lemma parse_items_skip (f : nat) (s : string) :
  Text.parse_items f (Text.skip_ws s) = Text.parse_items f s.
Proof.
  destruct f; [reflexivity|]. cbn [Text.parse_items].
  now rewrite parse_value_skip.
Qed.

Lemma parse_members_skip (f : nat) (s : string) :
  Text.parse_members f (Text.skip_ws s) = Text.parse_members f s.
Proof.
  destruct f; [reflexivity|]. cbn [Text.parse_members].
  now rewrite skip_ws_idem.
Qed.

Lemma digit_opens (c : ascii) :
  Text.is_digit c = true ->
  Text.is_ws c = false /\ Ascii.eqb c "]" = false /\
  Ascii.eqb c "}" = false /\ Ascii.eqb c " " = false /\
  Ascii.eqb c "," = false /\ Ascii.eqb c ":" = false.
Proof.
  destruct c as [[] [] [] [] [] [] [] []]; intros H;
    try discriminate H; repeat split.
Qed.

Lemma opens_number (lex : string) :
  Text.number_kind lex <> None -> opens_value lex.
Proof.
  intros H. destruct (number_head lex H) as [[c [r [-> Hc]]]|[c [r [-> Hc]]]].
  - exists c, r. split; [reflexivity|]. now apply digit_opens.
  - do 2 eexists. split; [reflexivity|]. repeat split.
Qed.

Lemma opens_encode (k level : nat) (v : value) :
  readable v -> opens_value (Json.encode k level v).
Proof.
  intros Hr. destruct v as [|[]|n|[r| | |]|s|[|x xs]|[|[key x] kvs]];
    try (do 2 eexists; split; [reflexivity|]; repeat split).
  - apply opens_number. destruct (encode_int_reads n) as [_ [H _]].
    cbn [Json.encode]. rewrite H. discriminate.
  - apply opens_number. simpl in Hr. unfold float_literal in Hr.
    apply andb_true_iff in Hr. destruct Hr as [_ Hr].
    cbn [Json.encode Json.float_str].
    destruct (Text.number_kind r); [discriminate | discriminate Hr].
Qed.

Lemma skip_ws_opens (s t : string) :
  opens_value s -> Text.skip_ws (s ++ t) = s ++ t.
Proof.
  intros [c [r [-> [H _]]]]. cbn [append Text.skip_ws]. now rewrite H.
Qed.

(** The reader on a string literal. *)
Lemma parse_value_str (f : nat) (s rest : string) :
  Utf8.valid s ->
  Text.parse_value (S f) (Json.encode_str s ++ rest) = Some (VStr s, rest).
Proof.
  intros Hs. unfold Json.encode_str. cbn [append].
  rewrite str_append_assoc. cbn [append].
  change (Text.parse_value (S f) (String Json.quote ?t))
    with (match Text.scan_string t with
          | Some (str, r') => Some (VStr str, r')
          | None => None
          end).
  now rewrite scan_encode_str.
Qed.

(** The items after the first, up to the closing bracket. *)
Lemma parse_tail_items (k level : nat) (xs : list value) :
  Forall (fun x => readable x ->
            forall level rest fuel,
              size x <= fuel -> delimited rest ->
              Text.parse_value fuel (Json.encode k level x ++ rest)
              = Some (x, rest)) xs ->
  Forall readable xs ->
  forall x rest fuel,
    readable x ->
    (readable x ->
     forall level rest fuel,
       size x <= fuel -> delimited rest ->
       Text.parse_value fuel (Json.encode k level x ++ rest)
       = Some (x, rest)) ->
    size (VList (x :: xs)) <= S fuel ->
    Text.parse_items fuel
      (Json.encode k (S level) x ++ tail_items k level xs ++
       Json.newline_indent k level ++ "]" ++ rest)
    = Some (x :: xs, rest).
Proof.
  intros IH Hxs. induction IH as [|y ys IHy _ IHys];
    intros x rest fuel Hx IHx Hsize.
  - destruct fuel as [|f]; [simpl in Hsize; lia|].
    cbn [Text.parse_items tail_items append].
    rewrite IHx; [| exact Hx | simpl in Hsize; lia | reflexivity].
    rewrite skip_ws_newline_indent. reflexivity.
  - destruct fuel as [|f]; [simpl in Hsize; lia|].
    inversion Hxs as [|? ? Hy Hys]; subst.
    cbn [Text.parse_items tail_items].
    rewrite !str_append_assoc. cbn [append].
    rewrite IHx; [| exact Hx | simpl in Hsize; lia | reflexivity].
    cbn [Text.skip_ws]. change (Text.is_ws ",") with false. cbv iota.
    change (Ascii.eqb "," ",") with true. cbv iota.
    rewrite <- parse_items_skip, skip_ws_newline_indent, parse_items_skip.
    pose proof (IHys Hys y rest f Hy IHy) as Hrec.
    cbn [append] in Hrec.
    rewrite Hrec; [reflexivity|].
    simpl in Hsize. simpl. lia.
Qed.

(** The members after the first, up to the closing brace. *)
Lemma parse_tail_members (k level : nat) (kvs : list (string * value)) :
  Forall (fun kv => readable (snd kv) ->
            forall level rest fuel,
              size (snd kv) <= fuel -> delimited rest ->
              Text.parse_value fuel (Json.encode k level (snd kv) ++ rest)
              = Some (snd kv, rest)) kvs ->
  Forall (fun kv => Utf8.valid (fst kv) /\ readable (snd kv)) kvs ->
  forall key x rest fuel,
    Utf8.valid key -> readable x ->
    (readable x ->
     forall level rest fuel,
       size x <= fuel -> delimited rest ->
       Text.parse_value fuel (Json.encode k level x ++ rest)
       = Some (x, rest)) ->
    size (VDict ((key, x) :: kvs)) <= S fuel ->
    Text.parse_members fuel
      (Json.encode_str key ++ ": " ++ Json.encode k (S level) x ++
       tail_members k level kvs ++
       Json.newline_indent k level ++ "}" ++ rest)
    = Some ((key, x) :: kvs, rest).
Proof.
  intros IH Hkvs. induction IH as [|[key' y] ys IHy _ IHys];
    intros key x rest fuel Hkey Hx IHx Hsize.
  - destruct fuel as [|f]; [simpl in Hsize; lia|].
    cbn [Text.parse_members tail_members append].
    unfold Json.encode_str at 1. cbn [append Text.skip_ws].
    change (Text.is_ws Json.quote) with false. cbv iota.
    change (negb (Ascii.eqb Json.quote Json.quote)) with false. cbv iota.
    rewrite str_append_assoc. cbn [append].
    rewrite scan_encode_str by exact Hkey.
    cbn [Text.skip_ws]. change (Text.is_ws ":") with false. cbv iota.
    change (negb (Ascii.eqb ":" ":")) with false. cbv iota.
    rewrite <- parse_value_skip.
    change (Text.skip_ws (String " " ?t)) with (Text.skip_ws t).
    rewrite parse_value_skip.
    rewrite IHx; [| exact Hx | simpl in Hsize; lia | reflexivity].
    rewrite skip_ws_newline_indent. reflexivity.
  - destruct fuel as [|f]; [simpl in Hsize; lia|].
    inversion Hkvs as [|? ? [Hkey' Hy] Hys]; subst. simpl in Hkey', Hy.
    cbn [Text.parse_members tail_members].
    unfold Json.encode_str at 1. cbn [append Text.skip_ws].
    change (Text.is_ws Json.quote) with false. cbv iota.
    change (negb (Ascii.eqb Json.quote Json.quote)) with false. cbv iota.
    rewrite !str_append_assoc. cbn [append].
    rewrite scan_encode_str by exact Hkey.
    cbn [Text.skip_ws]. change (Text.is_ws ":") with false. cbv iota.
    change (negb (Ascii.eqb ":" ":")) with false. cbv iota.
    rewrite <- parse_value_skip.
    change (Text.skip_ws (String " " ?t)) with (Text.skip_ws t).
    rewrite parse_value_skip.
    rewrite IHx; [| exact Hx | simpl in Hsize; lia | reflexivity].
    cbn [Text.skip_ws]. change (Text.is_ws ",") with false. cbv iota.
    change (Ascii.eqb "," ",") with true. cbv iota.
    rewrite <- parse_members_skip, skip_ws_newline_indent,
      parse_members_skip.
    pose proof (IHys Hys key' y rest f Hkey' Hy IHy) as Hrec.
    cbn [append] in Hrec. rewrite ?str_append_assoc.
    rewrite Hrec; [reflexivity|].
    simpl in Hsize. simpl. lia.
Qed.

Lemma parse_value_list (f : nat) (t : string) :
  (exists c r, Text.skip_ws t = String c r /\ Ascii.eqb c "]" = false) ->
  Text.parse_value (S f) (String "[" t) =
  match Text.parse_items f t with
  | Some (l, r) => Some (VList l, r)
  | None => None
  end.
Proof.
  intros [c [r [E H]]]. cbn [Text.parse_value Text.skip_ws].
  change (Text.is_ws "[") with false. cbv iota.
  change (Ascii.eqb "[" "[") with true. cbv iota.
  now rewrite E, H.
Qed.

Lemma parse_value_dict (f : nat) (t : string) :
  (exists c r, Text.skip_ws t = String c r /\ Ascii.eqb c "}" = false) ->
  Text.parse_value (S f) (String "{" t) =
  match Text.parse_members f t with
  | Some (d, r) => Some (VDict d, r)
  | None => None
  end.
Proof.
  intros [c [r [E H]]]. cbn [Text.parse_value Text.skip_ws].
  change (Text.is_ws "{") with false. cbv iota.
  change (Ascii.eqb "{" "[") with false. cbv iota.
  change (Ascii.eqb "{" "{") with true. cbv iota.
  now rewrite E, H.
Qed.

(** Reading undoes writing: a value as written, whatever the
    indentation and the nesting it is written at, reads back as the
    value, and the reader stops right behind it. *)
Lemma parse_encode (k : nat) (v : value) :
  readable v ->
  forall level rest fuel,
    size v <= fuel -> delimited rest ->
    Text.parse_value fuel (Json.encode k level v ++ rest) = Some (v, rest).
Proof.
  induction v as [|b|n|fl|s|l IH|d IH] using value_nested_ind;
    intros Hr level rest fuel Hsize Hrest;
    (destruct fuel as [|f]; [simpl in Hsize; lia|]).
  - reflexivity.
  - destruct b; reflexivity.
  - destruct (encode_int_reads n) as [_ [Hk _]].
    cbn [Json.encode]. rewrite parse_value_number
      by (rewrite Hk; discriminate).
    now apply scalar_of_int.
  - destruct fl as [r| | |]; try reflexivity.
    simpl in Hr. cbn [Json.encode Json.float_str].
    rewrite parse_value_number.
    + now apply scalar_of_float.
    + unfold float_literal in Hr. apply andb_true_iff in Hr.
      destruct Hr as [_ Hr].
      destruct (Text.number_kind r); [discriminate | discriminate Hr].
  - cbn [Json.encode]. now apply parse_value_str.
  - destruct l as [|x xs]; [reflexivity|].
    apply readable_list in Hr.
    inversion Hr as [|? ? Hx Hxs]; subst.
    inversion IH as [|? ? IHx IHxs]; subst.
    rewrite encode_list_cons. rewrite !str_append_assoc.
    cbn [append].
    rewrite parse_value_list.
    + rewrite <- parse_items_skip, skip_ws_newline_indent,
        parse_items_skip.
      pose proof (parse_tail_items k level xs IHxs Hxs x rest f Hx IHx
                    Hsize) as H.
      cbn [append] in H. now rewrite H.
    + rewrite skip_ws_newline_indent.
      pose proof (opens_encode k (S level) x Hx) as Ho.
      rewrite (skip_ws_opens _ _ Ho).
      destruct Ho as [c [r [-> [_ [Hc _]]]]]. cbn [append]. eauto.
  - destruct d as [|[key x] kvs]; [reflexivity|].
    apply readable_dict in Hr.
    inversion Hr as [|? ? [Hkey Hx] Hkvs]; subst. simpl in Hkey, Hx.
    inversion IH as [|? ? IHx IHkvs]; subst. simpl in IHx.
    rewrite encode_dict_cons. rewrite !str_append_assoc.
    cbn [append].
    rewrite parse_value_dict.
    + rewrite <- parse_members_skip, skip_ws_newline_indent,
        parse_members_skip.
      pose proof (parse_tail_members k level kvs IHkvs Hkvs key x rest f
                    Hkey Hx IHx Hsize) as H.
      cbn [append] in H. now rewrite H.
    + rewrite skip_ws_newline_indent.
      unfold Json.encode_str. cbn [append Text.skip_ws].
      change (Text.is_ws Json.quote) with false. cbv iota. eauto.
Qed.

Lemma length_append (a b : string) :
  String.length (a ++ b) = String.length a + String.length b.
Proof. induction a as [|c a IH]; simpl; [reflexivity | now rewrite IH]. Qed.

Lemma length_newline_indent (k level : nat) :
  1 <= String.length (Json.newline_indent k level).
Proof. unfold Json.newline_indent. simpl. lia. Qed.

(** A text is at least as long as the number of values in it. *)
Lemma size_le_length (k : nat) (v : value) :
  readable v ->
  forall level, size v <= String.length (Json.encode k level v).
Proof.
  induction v as [|b|n|fl|s|l IH|d IH] using value_nested_ind;
    intros Hr level.
  - simpl. lia.
  - destruct b; simpl; lia.
  - destruct (opens_encode k level (VInt n) I) as [c [r [-> _]]].
    simpl. lia.
  - destruct (opens_encode k level (VFloat fl) Hr) as [c [r [-> _]]].
    simpl. lia.
  - simpl. lia.
  - destruct l as [|x xs]; [simpl; lia|].
    apply readable_list in Hr.
    inversion Hr as [|? ? Hx Hxs]; subst.
    inversion IH as [|? ? IHx IHxs]; subst.
    rewrite encode_list_cons. rewrite !length_append.
    pose proof (IHx Hx (S level)) as Bx.
    pose proof (length_newline_indent k (S level)) as Bn.
    assert (size (VList xs) <= S (String.length (tail_items k level xs)))
      as Bt.
    { clear - IHxs Hxs. induction IHxs as [|y ys IHy _ IHys].
      - simpl. lia.
      - inversion Hxs as [|? ? Hy Hys]; subst.
        cbn [tail_items]. rewrite !length_append.
        pose proof (IHy Hy (S level)). pose proof (IHys Hys).
        pose proof (length_newline_indent k (S level)).
        simpl in *. lia. }
    simpl in *. lia.
  - destruct d as [|[key x] kvs]; [simpl; lia|].
    apply readable_dict in Hr.
    inversion Hr as [|? ? [Hkey Hx] Hkvs]; subst. simpl in Hkey, Hx.
    inversion IH as [|? ? IHx IHkvs]; subst. simpl in IHx.
    rewrite encode_dict_cons. rewrite !length_append.
    pose proof (IHx Hx (S level)) as Bx.
    pose proof (length_newline_indent k (S level)) as Bn.
    assert (size (VDict kvs) <= S (String.length (tail_members k level kvs)))
      as Bt.
    { clear - IHkvs Hkvs. induction IHkvs as [|[key y] ys IHy _ IHys].
      - simpl. lia.
      - inversion Hkvs as [|? ? [_ Hy] Hys]; subst. simpl in Hy, IHy.
        cbn [tail_members]. rewrite !length_append.
        pose proof (IHy Hy (S level)). pose proof (IHys Hys).
        pose proof (length_newline_indent k (S level)).
        simpl in *. lia. }
    simpl in *. lia.
Qed.

(** What [json.dumps] writes, [Text.loads] reads back. *)
Lemma loads_dumps (k : nat) (v : value) :
  readable v -> Text.loads (Json.dumps v k) = Some v.
Proof.
  intros Hr. unfold Text.loads, Json.dumps.
  pose proof (size_le_length k v Hr 0) as Hs.
  pose proof (parse_encode k v Hr 0 "" (S (String.length
                (Json.encode k 0 v))) ltac:(lia) I) as H.
  rewrite str_append_nil in H. now rewrite H.
Qed.

(** *** Indentation *)

Lemma layout_app (k : nat) (st : Text.place * nat) (a b : string) :
  Text.layout k st (a ++ b) =
  match Text.layout k st a with
  | Some st' => Text.layout k st' b
  | None => None
  end.
Proof.
  revert st; induction a as [|c a IH]; intros st; simpl; [reflexivity|].
  destruct (Text.layout_step k st c); [apply IH | reflexivity].
Qed.

Lemma layout_spaces (k n d m : nat) (t : string) :
  Text.layout k (Text.Margin n, d) (Json.spaces m ++ t) =
  Text.layout k (Text.Margin (m + n), d) t.
Proof.
  revert n; induction m as [|m IH]; intros n; [reflexivity|].
  cbn [Json.spaces append Text.layout Text.layout_step].
  change (Ascii.eqb " " " ") with true. cbv iota.
  rewrite IH. f_equal. f_equal. f_equal. lia.
Qed.

Lemma layout_spaces_closing (k n d m : nat) (t : string) :
  Text.layout k (Text.Closing n, d) (Json.spaces m ++ t) =
  Text.layout k (Text.Closing (m + n), d) t.
Proof.
  revert n; induction m as [|m IH]; intros n; [reflexivity|].
  cbn [Json.spaces append Text.layout Text.layout_step].
  change (Ascii.eqb " " " ") with true. cbv iota.
  rewrite IH. f_equal. f_equal. f_equal. lia.
Qed.

(** The line break behind an opening bracket or a comma leads to the
    margin of an item. *)
Lemma layout_break_opened (k d level : nat) (t : string) :
  Text.layout k (Text.Opened, d) (Json.newline_indent k level ++ t) =
  Text.layout k (Text.Margin (k * level), d) t.
Proof.
  unfold Json.newline_indent. cbn [append Text.layout].
  change (Text.layout_step k (Text.Opened, d) Json.newline)
    with (Some (Text.Margin 0, d)).
  cbv iota. rewrite layout_spaces. now rewrite Nat.add_0_r.
Qed.

Lemma layout_break_comma (k d level : nat) (t : string) :
  Text.layout k (Text.Broken, d) (Json.newline_indent k level ++ t) =
  Text.layout k (Text.Margin (k * level), d) t.
Proof.
  unfold Json.newline_indent. cbn [append Text.layout].
  change (Text.layout_step k (Text.Broken, d) Json.newline)
    with (Some (Text.Margin 0, d)).
  cbv iota. rewrite layout_spaces. now rewrite Nat.add_0_r.
Qed.

(** The line break behind the last item leads to the margin of the
    closing bracket. *)
Lemma layout_break_closing (k d level : nat) (t : string) :
  Text.layout k (Text.Inline, d) (Json.newline_indent k level ++ t) =
  Text.layout k (Text.Closing (k * level), d) t.
Proof.
  unfold Json.newline_indent. cbn [append Text.layout].
  change (Text.layout_step k (Text.Inline, d) Json.newline)
    with (Some (Text.Closing 0, d)).
  cbv iota. rewrite layout_spaces_closing. now rewrite Nat.add_0_r.
Qed.

(** Behind the right margin, a value starts like anywhere in a line. *)
Lemma layout_margin_value (k d : nat) (s t : string) :
  opens_value s ->
  Text.layout k (Text.Margin (k * d), d) (s ++ t) =
  Text.layout k (Text.Inline, d) (s ++ t).
Proof.
  intros [c [r [-> [Hw [H1 [H2 [H3 [H4 H5]]]]]]]].
  cbn [append Text.layout Text.layout_step]. rewrite H3, Nat.eqb_refl.
  unfold Text.start_step, Text.inline_step, Text.is_close.
  rewrite H1, H2, H4, H5. cbn [orb].
  unfold Text.is_ws in Hw. apply orb_false_iff in Hw.
  destruct Hw as [Hw _]. apply orb_false_iff in Hw.
  destruct Hw as [Hw _]. apply orb_false_iff in Hw.
  destruct Hw as [_ Hw]. now rewrite Hw.
Qed.

Lemma layout_closing_close (k d : nat) (c : ascii) (t : string) :
  Text.is_close c = true ->
  Text.layout k (Text.Closing (k * d), S d) (String c t) =
  Text.layout k (Text.Inline, d) t.
Proof.
  intros H. cbn [Text.layout Text.layout_step].
  destruct c as [[] [] [] [] [] [] [] []]; try discriminate H;
    cbn [Ascii.eqb Bool.eqb andb]; rewrite H; cbn [pred andb];
    rewrite Nat.eqb_refl; reflexivity.
Qed.

Lemma layout_inert (k d : nat) (s t : string) :
  Text.all inert s = true ->
  Text.layout k (Text.Inline, d) (s ++ t) =
  Text.layout k (Text.Inline, d) t.
Proof.
  induction s as [|c s IH]; simpl; intros H; [reflexivity|].
  apply andb_true_iff in H. destruct H as [Hc Hs].
  unfold inert in Hc. unfold Text.inline_step.
  destruct (Ascii.eqb c Json.quote); [discriminate Hc|].
  destruct (Text.is_open c); [discriminate Hc|].
  destruct (Text.is_close c); [discriminate Hc|].
  destruct (Ascii.eqb c ","); [discriminate Hc|].
  destruct (Ascii.eqb c Json.newline); [discriminate Hc|].
  now apply IH.
Qed.

Lemma num_char_inert (c : ascii) :
  Text.is_num_char c = true -> inert c = true.
Proof.
  destruct c as [[] [] [] [] [] [] [] []]; intros H;
    try discriminate H; reflexivity.
Qed.

Lemma all_num_inert (s : string) :
  Text.all Text.is_num_char s = true -> Text.all inert s = true.
Proof.
  induction s as [|c s IH]; simpl; [reflexivity|].
  intros H. apply andb_true_iff in H. destruct H as [Hc Hs].
  now rewrite (num_char_inert c Hc), (IH Hs).
Qed.

Lemma hex_digit_quoted (n : nat) :
  Ascii.eqb (Json.hex_digit n) "\" = false /\
  Ascii.eqb (Json.hex_digit n) Json.quote = false.
Proof.
  do 16 (destruct n as [|n]; [split; reflexivity|]). split; reflexivity.
Qed.

Lemma layout_quoted_char (k d : nat) (c : ascii) (t : string) :
  Ascii.eqb c "\" = false -> Ascii.eqb c Json.quote = false ->
  Text.layout k (Text.Quoted, d) (String c t) =
  Text.layout k (Text.Quoted, d) t.
Proof.
  intros H1 H2. cbn [Text.layout Text.layout_step]. now rewrite H1, H2.
Qed.

Lemma layout_quoted_hex4 (k d : nat) (n : N) (t : string) :
  Text.layout k (Text.Quoted, d) (Json.hex4 n ++ t) =
  Text.layout k (Text.Quoted, d) t.
Proof.
  unfold Json.hex4. cbn [append].
  repeat rewrite layout_quoted_char by apply hex_digit_quoted.
  reflexivity.
Qed.

Lemma layout_quoted_unicode (k d : nat) (n : N) (t : string) :
  Text.layout k (Text.Quoted, d) (String "\" (String "u" (Json.hex4 n ++ t)))
  = Text.layout k (Text.Quoted, d) t.
Proof.
  change (Text.layout k (Text.Quoted, d)
            (String "\" (String "u" (Json.hex4 n ++ t))))
    with (Text.layout k (Text.Quoted, d) (Json.hex4 n ++ t)).
  apply layout_quoted_hex4.
Qed.

(** An escaped character keeps the reader inside the literal. *)
Lemma layout_escape_cp (k d : nat) (cp : N) (t : string) :
  Text.layout k (Text.Quoted, d) (Json.escape_cp cp ++ t) =
  Text.layout k (Text.Quoted, d) t.
Proof.
  unfold Json.escape_cp.
  destruct (N.eqb_spec cp 34) as [->|N1]; [reflexivity|].
  destruct (N.eqb_spec cp 92) as [->|N2]; [reflexivity|].
  destruct (N.eqb cp 8); [reflexivity|].
  destruct (N.eqb cp 12); [reflexivity|].
  destruct (N.eqb cp 10); [reflexivity|].
  destruct (N.eqb cp 13); [reflexivity|].
  destruct (N.eqb cp 9); [reflexivity|].
  destruct (N.ltb cp 32 || N.ltb 126 cp) eqn:E.
  - destruct (N.ltb cp 0x10000).
    + change (("\u" ++ Json.hex4 cp) ++ t)
        with (String "\" (String "u" (Json.hex4 cp ++ t))).
      apply layout_quoted_unicode.
    + cbv zeta.
      replace (("\u" ++ Json.hex4 (0xD800 + (cp - 0x10000) / 1024) ++
                "\u" ++ Json.hex4 (0xDC00 + (cp - 0x10000) mod 1024)) ++ t)
        with (String "\" (String "u"
                (Json.hex4 (0xD800 + (cp - 0x10000) / 1024) ++
                 String "\" (String "u"
                   (Json.hex4 (0xDC00 + (cp - 0x10000) mod 1024) ++ t))))).
      2:{ cbn [append]. rewrite !str_append_assoc. reflexivity. }
      now rewrite !layout_quoted_unicode.
  - apply orb_false_iff in E. destruct E as [E1 E2].
    apply N.ltb_ge in E1. apply N.ltb_ge in E2.
    cbn [append]. apply layout_quoted_char.
    + change "\"%char with (ascii_of_N 92). apply ascii_of_N_neq; lia.
    + change Json.quote with (ascii_of_N 34). apply ascii_of_N_neq; lia.
Qed.

Lemma layout_encode_str (k d : nat) (s t : string) :
  Text.layout k (Text.Inline, d) (Json.encode_str s ++ t) =
  Text.layout k (Text.Inline, d) t.
Proof.
  unfold Json.encode_str, Json.escape. cbn [append].
  rewrite str_append_assoc. cbn [append].
  change (Text.layout k (Text.Inline, d) (String Json.quote ?x))
    with (Text.layout k (Text.Quoted, d) x).
  induction (map snd (Utf8.chars s)) as [|cp cps IH].
  - reflexivity.
  - cbn [Json.escape_all]. rewrite str_append_assoc, layout_escape_cp.
    exact IH.
Qed.

(** The layout of a value written at its own nesting depth: read from
    the middle of a line, it brings the reader back to the middle of a
    line at the same depth, with every line in between at its margin. *)
Lemma layout_encode (k : nat) (v : value) :
  readable v ->
  forall d t,
    Text.layout k (Text.Inline, d) (Json.encode k d v ++ t) =
    Text.layout k (Text.Inline, d) t.
Proof.
  induction v as [|b|n|fl|s|l IH|dict IH] using value_nested_ind;
    intros Hr d t.
  - reflexivity.
  - destruct b; reflexivity.
  - cbn [Json.encode]. apply layout_inert, all_num_inert.
    apply encode_int_reads.
  - destruct fl as [r| | |]; try reflexivity.
    cbn [Json.encode Json.float_str]. apply layout_inert, all_num_inert.
    simpl in Hr. unfold float_literal in Hr.
    apply andb_true_iff in Hr. apply Hr.
  - cbn [Json.encode]. apply layout_encode_str.
  - destruct l as [|x xs]; [reflexivity|].
    apply readable_list in Hr.
    inversion Hr as [|? ? Hx Hxs]; subst.
    inversion IH as [|? ? IHx IHxs]; subst.
    rewrite encode_list_cons. rewrite !str_append_assoc.
    cbn [append].
    change (Text.layout k (Text.Inline, d) (String "[" ?x))
      with (Text.layout k (Text.Opened, S d) x).
    rewrite layout_break_opened.
    rewrite layout_margin_value by now apply opens_encode.
    rewrite (IHx Hx).
    clear IHx Hx Hr IH. induction IHxs as [|y ys IHy _ IHys].
    + cbn [tail_items append]. rewrite layout_break_closing.
      now apply layout_closing_close.
    + inversion Hxs as [|? ? Hy Hys]; subst.
      cbn [tail_items]. rewrite !str_append_assoc. cbn [append].
      change (Text.layout k (Text.Inline, S d) (String "," ?x))
        with (Text.layout k (Text.Broken, S d) x).
      rewrite layout_break_comma.
      rewrite layout_margin_value by now apply opens_encode.
      rewrite (IHy Hy). now apply IHys.
  - destruct dict as [|[key x] kvs]; [reflexivity|].
    apply readable_dict in Hr.
    inversion Hr as [|? ? [Hkey Hx] Hkvs]; subst. simpl in Hkey, Hx.
    inversion IH as [|? ? IHx IHkvs]; subst. simpl in IHx.
    rewrite encode_dict_cons. rewrite !str_append_assoc.
    cbn [append].
    change (Text.layout k (Text.Inline, d) (String "{" ?x))
      with (Text.layout k (Text.Opened, S d) x).
    rewrite layout_break_opened.
    rewrite layout_margin_value
      by (unfold Json.encode_str; do 2 eexists;
          split; [reflexivity | repeat split]).
    rewrite layout_encode_str.
    change (Text.layout k (Text.Inline, S d) (String ":" (String " " ?x)))
      with (Text.layout k (Text.Inline, S d) x).
    rewrite (IHx Hx).
    clear IHx Hx Hr IH Hkey. induction IHkvs as [|[key' y] ys IHy _ IHys].
    + cbn [tail_members append]. rewrite layout_break_closing.
      now apply layout_closing_close.
    + inversion Hkvs as [|? ? [_ Hy] Hys]; subst. simpl in Hy, IHy.
      cbn [tail_members]. rewrite !str_append_assoc. cbn [append].
      change (Text.layout k (Text.Inline, S d) (String "," ?x))
        with (Text.layout k (Text.Broken, S d) x).
      rewrite layout_break_comma.
      rewrite layout_margin_value
        by (unfold Json.encode_str; do 2 eexists;
            split; [reflexivity | repeat split]).
      rewrite layout_encode_str.
      change (Text.layout k (Text.Inline, S d)
                (String ":" (String " " ?x)))
        with (Text.layout k (Text.Inline, S d) x).
      rewrite (IHy Hy). now apply IHys.
Qed.

(** What [json.dumps] writes with an indentation of [k] is indented by
    [k] spaces a level. *)
Lemma indented_dumps (k : nat) (v : value) :
  readable v -> Text.indented k (Json.dumps v k) = true.
Proof.
  intros Hr. unfold Text.indented, Json.dumps.
  rewrite <- (str_append_nil (Json.encode k 0 v)).
  replace 0 with (k * 0) at 1 by lia.
  rewrite layout_margin_value by now apply opens_encode.
  now rewrite layout_encode.
Qed.

Lemma well_formed_valid (s : string) : well_formed s = true -> Utf8.valid s.
Proof.
  unfold well_formed. intros H. apply andb_true_iff in H.
  destruct H as [Hs He]. apply String.eqb_eq in He.
  exists (map snd (Utf8.chars s)). split; [exact Hs | now symmetry].
Qed.

(** The reader and the layout on texts written by hand, and on texts that
    are not laid out as asked. *)
Example loads_by_hand :
  let q := String Json.quote "" in
  Text.loads ("[{" ++ q ++ "file" ++ q ++ ": " ++ q ++ "aé\n.c" ++ q ++
              ", " ++ q ++ "n" ++ q ++ ": [-12, 1.5e3, true, null]}]")
  = Some (VList [VDict [("file", VStr (String "a"
                                  (String (ascii_of_nat 195)
                                  (String (ascii_of_nat 169)
                                  (String Json.newline ".c")))));
                        ("n", VList [VInt (-12); VFloat (Finite "1.5e3");
                                     VBool true; VNone])]]).
Proof. reflexivity. Qed.

Example indented_rejects :
  Text.indented 2 "[1, 2]" = false /\
  Text.indented 2 (Json.dumps (VList [VInt 1; VInt 2]) 4) = false /\
  Text.indented 4 (Json.dumps (VList [VInt 1; VInt 2]) 2) = false /\
  Text.indented 2 (Json.dumps (VList [VInt 1; VInt 2]) 2) = true.
Proof. repeat split. Qed.



(** * Further properties of the script *)

(** ** Failing runs *)

(** X1: started without an argument, the script dies of [IndexError] on
    line 8 before it has asked the host anything. *)
Theorem no_argument_no_effect (h : host) :
  nth_error (argv h) 1 = None ->
  trace h = [] /\
  snd (main h) = inr (Uncaught IndexError) /\
  exit_status h = 1%Z.
Proof.
  intros Ha. revert Ha. run_cases h; intros Ha; try congruence.
  repeat split.
Qed.

Lemma no_argument_no_effect_witness :
  trace {| argv := ["cppcheck.py"]; path_exists := fun _ => true;
           which := fun _ => Some "/usr/bin/cppcheck";
           load := fun _ => Some sample_doc; write_ok := fun _ => true;
           cpu_count := Some 8; child := fun _ => Some 0%Z |} = [] /\
  snd (main {| argv := ["cppcheck.py"]; path_exists := fun _ => true;
               which := fun _ => Some "/usr/bin/cppcheck";
               load := fun _ => Some sample_doc; write_ok := fun _ => true;
               cpu_count := Some 8; child := fun _ => Some 0%Z |})
    = inr (Uncaught IndexError) /\
  exit_status {| argv := ["cppcheck.py"]; path_exists := fun _ => true;
                 which := fun _ => Some "/usr/bin/cppcheck";
                 load := fun _ => Some sample_doc; write_ok := fun _ => true;
                 cpu_count := Some 8; child := fun _ => Some 0%Z |} = 1%Z.
Proof.
  apply no_argument_no_effect. reflexivity.
Defined.

(** X2: the script writes at most once, and only to the filtered file,
    whose path is never that of the database: the input is not
    overwritten. *)
Theorem only_filtered_file_written (h : host) :
  (forall p c ok,
      In (Write p c ok) (trace h) ->
      exists bd, nth_error (argv h) 1 = Some bd /\
                 p = filtered_path bd /\ p <> database_path bd) /\
  List.length (filter is_write (trace h)) <= 1.
Proof.
  split.
  - intros p c ok. run_cases h; intros Hin; in_events Hin;
      injection Hin as <- <- <-; exists bd;
      (split; [assumption|]); (split; [reflexivity|]);
      apply filtered_path_fresh.
  - run_cases h; events; cbn [filter is_write List.length]; lia.
Qed.

Lemma only_filtered_file_written_witness :
  exists bd,
    nth_error (argv (sample_host true (Some "/usr/bin/cppcheck") 2)) 1
      = Some bd /\
    "build/compile_commands_cppcheck.json" = filtered_path bd /\
    "build/compile_commands_cppcheck.json" <> database_path bd.
Proof.
  eapply (proj1 (only_filtered_file_written
                   (sample_host true (Some "/usr/bin/cppcheck") 2))).
  vm_compute. do 5 right. left. reflexivity.
Defined.

(** X3: a child, when started, is the last thing that happens; right
    before it come the successful write and the processor count, the
    file named by [--project=] is the file just written, and nothing
    earlier is a write or a child. *)
Theorem child_is_last (h : host) (args : list string) (shell : bool)
  (st : option Z) :
  In (CheckCall args shell st) (trace h) ->
  exists pre p c n,
    trace h =
      (pre ++ [Write p c true; CpuCount (Some n);
               CheckCall args shell st])%list /\
    nth_error args 1 = Some ("--project=" ++ p) /\
    nth_error args 5 = Some (str_of_nat n) /\
    forall e, In e pre -> is_check_call e = false /\ is_write e = false.
Proof.
  run_cases h; intros Hin; in_events Hin; injection Hin as <- <- <-;
    exists (events_to_load bd cmd (Some doc)), (filtered_path bd),
           (Json.dumps (VList ys) 2), n;
    (split; [reflexivity|]); (split; [reflexivity|]);
    (split; [reflexivity|]);
    intros e He; in_events He; subst e; split; reflexivity.
Qed.

Lemma child_is_last_witness :
  exists pre p c n,
    trace (sample_host true (Some "/usr/bin/cppcheck") 2) =
      (pre ++ [Write p c true; CpuCount (Some n);
               CheckCall (cppcheck_args "/usr/bin/cppcheck" "build" 8)
                 false (Some 2%Z)])%list /\
    nth_error (cppcheck_args "/usr/bin/cppcheck" "build" 8) 1
      = Some ("--project=" ++ p) /\
    nth_error (cppcheck_args "/usr/bin/cppcheck" "build" 8) 5
      = Some (str_of_nat n) /\
    forall e, In e pre -> is_check_call e = false /\ is_write e = false.
Proof.
  apply child_is_last. vm_compute. do 7 right. left. reflexivity.
Defined.

(** X4: when the database exists but cannot be opened or parsed, the
    exception of line 22 or 23 ends the script: status 1, nothing
    written, no child. *)
Theorem load_failure_aborts (h : host) (bd cmd : string) :
  nth_error (argv h) 1 = Some bd ->
  path_exists h (database_path bd) = true ->
  which h "cppcheck" = Some cmd -> cmd <> "" ->
  load h (database_path bd) = None ->
  snd (main h) = inr (Uncaught LoadError) /\
  exit_status h = 1%Z /\
  ~ wrote_something h /\
  ~ called_something h.
Proof.
  intros Ha Hx Hw Hc Hl. revert Ha Hx Hw Hc Hl.
  run_cases h; intros Ha Hx Hw Hc Hl;
    try congruence; try (subst; discriminate Hw).
  - assert (found = Some cmd) as -> by congruence.
    unfold falsy in *. apply String.eqb_eq in H2. congruence.
  - repeat (split; [reflexivity|]). split.
    + intros [p [c [ok Hin]]]. in_events Hin.
    + intros [a [s [st Hin]]]. in_events Hin.
Qed.

Lemma load_failure_aborts_witness :
  snd (main (loading_host None (Some 8))) = inr (Uncaught LoadError) /\
  exit_status (loading_host None (Some 8)) = 1%Z /\
  ~ wrote_something (loading_host None (Some 8)) /\
  ~ called_something (loading_host None (Some 8)).
Proof.
  apply (load_failure_aborts (loading_host None (Some 8)) "build"
           "/usr/bin/cppcheck"); try reflexivity. discriminate.
Defined.

(** X5: when the comprehension of line 44 raises, that exception ends the
    script before the write: status 1, nothing written, no child.  A
    document that is [null], a boolean or a number raises [TypeError]. *)
Theorem filter_failure_aborts (h : host) (bd cmd : string) (doc : value) :
  nth_error (argv h) 1 = Some bd ->
  path_exists h (database_path bd) = true ->
  which h "cppcheck" = Some cmd -> cmd <> "" ->
  load h (database_path bd) = Some doc ->
  (forall e, filter_doc doc = Raise e ->
     snd (main h) = inr (Uncaught e) /\
     exit_status h = 1%Z /\
     ~ wrote_something h /\
     ~ called_something h) /\
  (scalar doc -> filter_doc doc = Raise TypeError).
Proof.
  intros Ha Hx Hw Hc Hl. split.
  - intros e He. revert Ha Hx Hw Hc Hl He.
    run_cases h; intros Ha Hx Hw Hc Hl He;
      try congruence; try (subst; discriminate Hw).
    + assert (found = Some cmd) as -> by congruence.
      unfold falsy in *. apply String.eqb_eq in H2. congruence.
    + assert (e0 = e) as -> by congruence.
      repeat (split; [reflexivity|]). split.
      * intros [p [c [ok Hin]]]. in_events Hin.
      * intros [a [s [st Hin]]]. in_events Hin.
  - destruct doc; simpl; intros Hs; try contradiction; reflexivity.
Qed.

Lemma filter_failure_aborts_witness :
  snd (main (loading_host (Some (VInt 7)) (Some 8)))
    = inr (Uncaught TypeError) /\
  exit_status (loading_host (Some (VInt 7)) (Some 8)) = 1%Z /\
  ~ wrote_something (loading_host (Some (VInt 7)) (Some 8)) /\
  ~ called_something (loading_host (Some (VInt 7)) (Some 8)).
Proof.
  apply (proj1 (filter_failure_aborts
                  (loading_host (Some (VInt 7)) (Some 8)) "build"
                  "/usr/bin/cppcheck" (VInt 7)
                  eq_refl eq_refl eq_refl
                  (fun H => match H with eq_refl => I end)
                  eq_refl)).
  reflexivity.
Defined.

(** X6: once the filtered file is on disk, the only ways left to fail
    are the processor count and the child: a run that wrote the file and
    leaves with status 1 either got no processor count or started a child
    that did not leave with status 0.  The file stays written. *)
Theorem failure_after_write (h : host) (p c : string) :
  In (Write p c true) (trace h) ->
  exit_status h = 1%Z ->
  cpu_count h = None \/
  exists args st,
    In (CheckCall args false st) (trace h) /\ st <> Some 0%Z.
Proof.
  run_cases h; intros Hin Hs; in_events Hin; try discriminate Hs.
  - left. assumption.
  - right. exists (cppcheck_args cmd bd n), None. split.
    + events. auto 10.
    + discriminate.
  - right. exists (cppcheck_args cmd bd n), (Some c0). split.
    + events. auto 10.
    + congruence.
Qed.

Lemma failure_after_write_witness :
  cpu_count (loading_host (Some sample_doc) None) = None \/
  exists args st,
    In (CheckCall args false st)
       (trace (loading_host (Some sample_doc) None)) /\
    st <> Some 0%Z.
Proof.
  eapply (failure_after_write (loading_host (Some sample_doc) None)).
  - vm_compute. do 5 right. left. reflexivity.
  - reflexivity.
Defined.

(** ** Values the filter was not written for *)

Lemma non_dict_verdict (v : value) :
  (forall d, v <> VDict d) ->
  is_valid_entry v = Ok true \/ is_valid_entry v = Raise TypeError.
Proof.
  intros Hv. destruct v as [| | | |s|l|d]; try (right; reflexivity).
  - unfold is_valid_entry, entry_key, contains, subscript, rbind.
    destruct (str_contains "output" s); [now right|].
    destruct (str_contains "file" s); [now right | now left].
  - unfold is_valid_entry, entry_key, contains, subscript, rbind.
    destruct (existsb (str_eq "output") l); [now right|].
    destruct (existsb (str_eq "file") l); [now right | now left].
  - now destruct (Hv d).
Qed.

(** X7: an element of the document that is not a dict is never dropped:
    the call either returns [True] or raises [TypeError].  A string is
    kept exactly when it holds neither [output] nor [file]; a scalar
    raises. *)
Theorem non_dict_never_excluded :
  (forall v, (forall d, v <> VDict d) ->
             is_valid_entry v = Ok true \/
             is_valid_entry v = Raise TypeError) /\
  (forall s, is_valid_entry (VStr s) = Ok true <->
             ~ Substring "output" s /\ ~ Substring "file" s) /\
  (forall v, scalar v -> is_valid_entry v = Raise TypeError).
Proof.
  split; [exact non_dict_verdict|]. split.
  - intros s. rewrite <- !str_contains_false_iff.
    unfold is_valid_entry, entry_key, contains, subscript, rbind.
    destruct (str_contains "output" s), (str_contains "file" s);
      split; intros H; try discriminate H; try reflexivity;
      destruct H; try discriminate; auto.
  - intros v Hs. destruct v; try contradiction; reflexivity.
Qed.

Lemma non_dict_never_excluded_witness :
  (is_valid_entry (VStr "directory") = Ok true \/
   is_valid_entry (VStr "directory") = Raise TypeError) /\
  is_valid_entry (VInt 3) = Raise TypeError.
Proof.
  split.
  - apply (proj1 non_dict_never_excluded). discriminate.
  - apply (proj2 (proj2 non_dict_never_excluded)). exact I.
Defined.

(** X8: a key that is a number or a boolean makes the first [in] of line
    38 raise [TypeError], whichever field it came from. *)
Theorem scalar_key_raises (d : list (string * value)) (k : value) :
  spec_key d = Some k -> scalar k -> k <> VNone ->
  is_valid_entry (VDict d) = Raise TypeError.
Proof.
  intros Hk Hs Hn. rewrite is_valid_entry_of_key, Hk.
  destruct k; try contradiction; try reflexivity; congruence.
Qed.

Lemma scalar_key_raises_witness :
  is_valid_entry (VDict [("file", VStr "/src/a.cpp"); ("output", VInt 5)])
  = Raise TypeError.
Proof.
  apply (scalar_key_raises _ (VInt 5)); [reflexivity | exact I | discriminate].
Defined.

(** X9: an [output] that is [null] is present, so it is taken as the key
    and [file] is not consulted; the key being [None], the record is
    kept, whatever [file] holds. *)
Theorem null_output_kept (d : list (string * value)) :
  dict_get "output" d = Some VNone ->
  entry_key (VDict d) = Ok VNone /\ is_valid_entry (VDict d) = Ok true.
Proof.
  intros H. rewrite is_valid_entry_of_key, entry_key_dict.
  rewrite (spec_key_output _ _ H). split; reflexivity.
Qed.

Lemma null_output_kept_witness :
  entry_key (VDict [("file", VStr "/vendor/stb.c"); ("output", VNone)])
    = Ok VNone /\
  is_valid_entry (VDict [("file", VStr "/vendor/stb.c"); ("output", VNone)])
    = Ok true.
Proof.
  apply null_output_kept. reflexivity.
Defined.

Lemma existsb_str_eq (lit : string) (l : list value) :
  existsb (str_eq lit) l = true <-> In (VStr lit) l.
Proof.
  rewrite existsb_exists. split.
  - intros [x [Hin Hx]]. destruct x; try discriminate Hx.
    simpl in Hx. apply String.eqb_eq in Hx. now subst.
  - intros H. exists (VStr lit). split; [exact H|].
    simpl. apply String.eqb_refl.
Qed.

(** X10: a key that is a list is searched for an element equal to a
    fragment, not for a substring: the record is kept exactly when none
    of the four fragments is itself an element of the list. *)
Theorem list_key_by_equality (d : list (string * value))
  (l : list value) :
  spec_key d = Some (VList l) ->
  exists keep,
    is_valid_entry (VDict d) = Ok keep /\
    (keep = true <->
     forall frag, In frag denylist -> ~ In (VStr frag) l).
Proof.
  intros Hk. rewrite is_valid_entry_of_key, Hk.
  cbv [key_is_clean contains rbind].
  destruct (existsb (str_eq "_deps") l) eqn:E1.
  { eexists. split; [reflexivity|]. split; [discriminate|].
    intros H. apply existsb_str_eq in E1. apply H in E1; [contradiction|].
    simpl. tauto. }
  destruct (existsb (str_eq "cerlibTests.dir") l) eqn:E2.
  { eexists. split; [reflexivity|]. split; [discriminate|].
    intros H. apply existsb_str_eq in E2. apply H in E2; [contradiction|].
    simpl. tauto. }
  destruct (existsb (str_eq "embedded_files") l) eqn:E3.
  { eexists. split; [reflexivity|]. split; [discriminate|].
    intros H. apply existsb_str_eq in E3. apply H in E3; [contradiction|].
    simpl. tauto. }
  eexists. split; [reflexivity|].
  destruct (existsb (str_eq "stb.c") l) eqn:E4; simpl.
  - split; [discriminate|].
    intros H. apply existsb_str_eq in E4. apply H in E4; [contradiction|].
    simpl. tauto.
  - split; [|reflexivity]. intros _ frag Hin Hl.
    apply existsb_str_eq in Hl. simpl in Hin.
    destruct Hin as [<-|[<-|[<-|[<-|[]]]]]; congruence.
Qed.

Lemma list_key_by_equality_witness :
  exists keep,
    is_valid_entry (VDict [("output", VList [VStr "build/_deps/a.o"])])
      = Ok keep /\
    (keep = true <->
     forall frag, In frag denylist ->
                  ~ In (VStr frag) [VStr "build/_deps/a.o"]).
Proof.
  apply list_key_by_equality. reflexivity.
Defined.

(** ** The comprehension as a whole *)

(** X11: the first element whose test raises decides the comprehension:
    if every element before it is tested without exception, the
    comprehension raises that element's exception, whatever follows. *)
Theorem first_failure_decides (pre post : list value) (x : value)
  (e : exn) :
  Forall (fun y => exists b, is_valid_entry y = Ok b) pre ->
  is_valid_entry x = Raise e ->
  filter_doc (VList (pre ++ x :: post)%list) = Raise e.
Proof.
  intros Hpre Hx. rewrite filter_doc_list.
  induction Hpre as [|y pre [b Hb] _ IH]; simpl.
  - now rewrite Hx.
  - now rewrite Hb, IH.
Qed.

Lemma first_failure_decides_witness :
  filter_doc (VList ([sample_record; sample_dep_record] ++
                     VInt 0 :: [VBool true; sample_record])%list)
  = Raise TypeError.
Proof.
  apply first_failure_decides.
  - repeat constructor; eexists; reflexivity.
  - reflexivity.
Defined.

Lemma filter_keeps_strings (d : list (string * value)) :
  Forall (fun x => is_valid_entry x = Ok (keeps x))
         (map (fun kv => VStr (fst kv)) d) ->
  filter keeps (map (fun kv => VStr (fst kv)) d)
  = map (fun kv => VStr (fst kv)) d.
Proof.
  induction d as [|[k v] d IH]; simpl; intros H; [reflexivity|].
  inversion H as [|? ? Hk Hd]; subst.
  destruct (non_dict_verdict (VStr k)) as [Ht|Ht]; [discriminate| |];
    rewrite Ht in Hk; [|discriminate].
  injection Hk as <-. now rewrite (IH Hd).
Qed.

(** X12: a document that is a dict instead of a list is iterated over
    its keys, which are strings and so are never dropped: when the
    comprehension returns, it returns all the keys, in order; it does
    return when no key holds [output] or [file]. *)
Theorem dict_document_yields_keys (d : list (string * value)) :
  (forall ys, filter_doc (VDict d) = Ok ys ->
              ys = map (fun kv => VStr (fst kv)) d) /\
  (Forall (fun kv => ~ Substring "output" (fst kv) /\
                     ~ Substring "file" (fst kv)) d ->
   filter_doc (VDict d) = Ok (map (fun kv => VStr (fst kv)) d)).
Proof.
  split.
  - intros ys H. change (filter_doc (VDict d))
      with (filter_entries (map (fun kv => VStr (fst kv)) d)) in H.
    destruct (filter_entries_inv _ _ H) as [-> HF].
    now apply filter_keeps_strings.
  - intros H. change (filter_doc (VDict d))
      with (filter_entries (map (fun kv => VStr (fst kv)) d)).
    induction H as [|[k v] d Hk _ IH]; simpl; [reflexivity|].
    apply (proj1 (proj2 non_dict_never_excluded) k) in Hk.
    now rewrite Hk, IH.
Qed.

Lemma dict_document_yields_keys_witness :
  filter_doc (VDict [("directory", VStr "_deps"); ("command", VInt 1)])
  = Ok [VStr "directory"; VStr "command"].
Proof.
  apply (proj2 (dict_document_yields_keys
                  [("directory", VStr "_deps"); ("command", VInt 1)])).
  repeat constructor; apply str_contains_false_iff; reflexivity.
Defined.

Lemma keeps_record (d : list (string * value)) :
  str_field "output" d -> str_field "file" d ->
  (keeps (VDict d) = true <->
   forall s, spec_key d = Some (VStr s) -> clean s).
Proof.
  intros Ho Hf. unfold keeps. destruct (spec_key d) as [k|] eqn:Ek.
  - assert (exists s, k = VStr s) as [s ->].
    { unfold spec_key in Ek. destruct (dict_get "output" d) eqn:Eo.
      - injection Ek as <-. eauto.
      - eauto. }
    rewrite (is_valid_entry_str_key _ _ Ek).
    pose proof (clean_iff s) as Hc.
    destruct (negb (existsb _ denylist)); split; intros H.
    + intros s' Hs'. injection Hs' as <-. now apply Hc.
    + reflexivity.
    + discriminate H.
    + apply Hc, H. reflexivity.
  - rewrite (is_valid_entry_no_key _ Ek). split; [discriminate|reflexivity].
Qed.

(** X13: on a list of records the comprehension returns exactly the
    records of the input whose key, when they have one, holds none of the
    four fragments. *)
Theorem kept_records_exactly (xs ys : list value) :
  Forall record xs ->
  filter_doc (VList xs) = Ok ys ->
  forall d,
    In (VDict d) ys <->
    In (VDict d) xs /\ (forall s, spec_key d = Some (VStr s) -> clean s).
Proof.
  intros Hr H d. rewrite filter_doc_list in H.
  destruct (filter_entries_inv _ _ H) as [-> _].
  rewrite filter_In. split; intros [Hin Hk]; (split; [exact Hin|]).
  - rewrite Forall_forall in Hr. destruct (Hr _ Hin) as [d' [E [Ho Hf]]].
    injection E as <-. now apply (keeps_record d Ho Hf).
  - rewrite Forall_forall in Hr. destruct (Hr _ Hin) as [d' [E [Ho Hf]]].
    injection E as <-. now apply (keeps_record d Ho Hf).
Qed.

Lemma kept_records_exactly_witness :
  In (VDict [("file", VStr "/vendor/stb.c")])
     [sample_record; sample_bare_record] <->
  In (VDict [("file", VStr "/vendor/stb.c")])
     [sample_record; VDict [("file", VStr "/vendor/stb.c")];
      sample_bare_record] /\
  (forall s, spec_key [("file", VStr "/vendor/stb.c")] = Some (VStr s) ->
             clean s).
Proof.
  apply kept_records_exactly.
  - repeat constructor; eexists; (split; [reflexivity|]);
      split; intros x Hx; vm_compute in Hx;
      try discriminate Hx; injection Hx as <-; eauto.
  - reflexivity.
Defined.

(** X14: the verdict on a record does not depend on its neighbours:
    filtering two lists one after the other and filtering them joined
    give the same records in the same order. *)
Theorem filter_distributes (xs ys a b : list value) :
  filter_doc (VList xs) = Ok a ->
  filter_doc (VList ys) = Ok b ->
  filter_doc (VList (xs ++ ys)%list) = Ok (a ++ b)%list.
Proof.
  rewrite !filter_doc_list. intros Ha Hb.
  destruct (filter_entries_inv _ _ Ha) as [-> Fa].
  destruct (filter_entries_inv _ _ Hb) as [-> Fb].
  rewrite <- filter_app. apply filter_entries_all_ok.
  apply Forall_app. split.
  - apply (Forall_impl _ (fun x Hx => ex_intro _ (keeps x) Hx) Fa).
  - apply (Forall_impl _ (fun x Hx => ex_intro _ (keeps x) Hx) Fb).
Qed.

Lemma filter_distributes_witness :
  filter_doc (VList ([sample_record; sample_dep_record] ++
                     [sample_stb_record; sample_bare_record])%list)
  = Ok ([sample_record] ++ [sample_bare_record])%list.
Proof.
  apply filter_distributes; reflexivity.
Defined.

Lemma filter_same_length {A : Type} (f : A -> bool) (l : list A) :
  List.length (filter f l) = List.length l -> filter f l = l.
Proof.
  induction l as [|x l IH]; simpl; [reflexivity|].
  destruct (f x); simpl; intros H.
  - f_equal. apply IH. lia.
  - pose proof (filter_length_le f l). lia.
Qed.

(** X15: the comprehension never returns more than it was given, and if
    it returns as many records as it was given it returns the input
    itself. *)
Theorem filter_never_grows (xs ys : list value) :
  filter_doc (VList xs) = Ok ys ->
  List.length ys <= List.length xs /\
  (List.length ys = List.length xs -> ys = xs).
Proof.
  rewrite filter_doc_list. intros H.
  destruct (filter_entries_inv _ _ H) as [-> _]. split.
  - apply filter_length_le.
  - apply filter_same_length.
Qed.

Lemma filter_never_grows_witness :
  List.length [sample_record; sample_bare_record] <=
  List.length [sample_record; sample_dep_record; sample_bare_record;
               sample_stb_record] /\
  (List.length [sample_record; sample_bare_record] =
   List.length [sample_record; sample_dep_record; sample_bare_record;
                sample_stb_record] ->
   [sample_record; sample_bare_record] =
   [sample_record; sample_dep_record; sample_bare_record;
    sample_stb_record]).
Proof.
  apply filter_never_grows. reflexivity.
Defined.

Lemma Substring_extend (frag s pre post : string) :
  Substring frag s -> Substring frag (pre ++ s ++ post).
Proof.
  intros [a [b ->]]. exists (pre ++ a), (b ++ post).
  now rewrite !str_append_assoc.
Qed.

(** X16: exclusion survives lengthening the path: if a record with a
    string key is dropped, so is every record whose key holds that key as
    a substring. *)
Theorem exclusion_extends (d1 d2 : list (string * value))
  (s pre post : string) :
  spec_key d1 = Some (VStr s) ->
  spec_key d2 = Some (VStr (pre ++ s ++ post)) ->
  is_valid_entry (VDict d1) = Ok false ->
  is_valid_entry (VDict d2) = Ok false.
Proof.
  intros H1 H2 Hv. rewrite (is_valid_entry_str_key _ _ H1) in Hv.
  destruct (existsb (fun frag => str_contains frag s) denylist) eqn:E;
    [|discriminate Hv].
  apply existsb_exists in E.
  destruct E as [frag [Hin Hc]]. apply str_contains_iff in Hc.
  apply (dirty_key_excluded d2 _ frag H2 Hin).
  now apply Substring_extend.
Qed.

Lemma exclusion_extends_witness :
  is_valid_entry
    (VDict [("file", VStr ("/home/me/" ++ "x/stb.c" ++ ".orig"))])
  = Ok false.
Proof.
  apply (exclusion_extends [("output", VStr "x/stb.c")] _ "x/stb.c"
           "/home/me/" ".orig"); reflexivity.
Defined.

(** ** What is written and passed on *)

(** X18: the last argument handed to the child is the decimal numeral of
    the processor count: read back as a number it is the count the host
    answered. *)
Theorem jobs_argument_reads_back (h : host) (args : list string)
  (shell : bool) (st : option Z) :
  In (CheckCall args shell st) (trace h) ->
  exists s,
    nth_error args 5 = Some s /\
    option_map Nat.of_uint (NilEmpty.uint_of_string s) = cpu_count h.
Proof.
  run_cases h; intros Hin; in_events Hin; injection Hin as <- <- <-;
    exists (str_of_nat n); (split; [reflexivity|]);
    unfold str_of_nat; rewrite NilEmpty.usu; simpl;
    rewrite DecimalNat.Unsigned.of_to; symmetry; assumption.
Qed.

Lemma jobs_argument_reads_back_witness :
  exists s,
    nth_error (cppcheck_args "/usr/bin/cppcheck" "build" 8) 5 = Some s /\
    option_map Nat.of_uint (NilEmpty.uint_of_string s) =
    cpu_count (sample_host true (Some "/usr/bin/cppcheck") 0).
Proof.
  apply (jobs_argument_reads_back
           (sample_host true (Some "/usr/bin/cppcheck") 0) _ false
           (Some 0%Z)).
  vm_compute. do 7 right. left. reflexivity.
Defined.
